(** * RobotSpareBin order automation: a shallow embedding of [tasks.py]

    The script drives a browser through an order form for every row of a
    downloaded table, stores a receipt and a screenshot per order, merges
    them and zips the merged documents.  Everything it does is a call into
    an external library (Playwright, pandas, RPA.PDF, RPA.HTTP), so the
    embedding threads an explicit world through a state-and-exception
    monad: the world holds the state of the outside (browser, network,
    document libraries), the output directory and the trace of everything
    the script did.  The outside is a parameter: every theorem holds for
    every behaviour of the libraries. *)

From Stdlib Require Import ZArith Lia.
From stdpp Require Import base option list gmap strings pretty.
From Equations.Prop Require Import Equations Logic.

#[local] Set Warnings "-clear-no-such-hyp".

Local Open Scope Z_scope.
Local Open Scope string_scope.
Local Open Scope list_scope.

(** ** Values of the tables *)

(** A present cell of a pandas table as this script meets them: an integer
    or a string.  Floating-point cells other than the missing value are not
    modelled. *)
Inductive scalar :=
| SInt (z : Z)
| SStr (s : string).

(** A cell is a scalar or the missing value ([NaN], Python's [None]). *)
Definition cell : Type := option scalar.
Definition NaN : cell := None.

#[global] Instance scalar_eq_dec : EqDecision scalar.
Proof. solve_decision. Defined.

Definition scalar_to_sum (x : scalar) : Z + string :=
  match x with SInt z => inl z | SStr s => inr s end.

Definition scalar_of_sum (y : Z + string) : scalar :=
  match y with inl z => SInt z | inr s => SStr s end.

#[global] Instance scalar_countable : Countable scalar.
Proof.
  apply (inj_countable' scalar_to_sum scalar_of_sum).
  by intros [].
Defined.

(** Python's [str(x)], also what an f-string field [{x}] produces. *)
Definition str (c : cell) : string :=
  match c with
  | Some (SInt z) => pretty z
  | Some (SStr s) => s
  | None => "nan"
  end.

(** One row of the orders table, with the five columns the script unpacks
    in [fill_the_form]: [_, head, body, legs, address = row]. *)
Record order_row := OrderRow {
  Order_number : cell;
  Head : cell;
  Body : cell;
  Legs : cell;
  Address : cell
}.

(** One record of the model-info table, as [df.to_dict(orient="records")]
    yields it, restricted to the two columns the script reads.  The part
    number is a dictionary key, so it is a present (hashable, self-equal)
    scalar. *)
Record model_row := ModelRow {
  Model_name : cell;
  Part_number : scalar
}.

(** Bytes of a file; the script never looks inside one. *)
Definition content : Type := string.

(** ** Exceptions and results *)

(** A raised exception: the name of its class, its message ([str(e)]) and
    whether it is an instance of [Exception], which is what
    [except Exception] tests.  [KeyboardInterrupt], [SystemExit] and
    [GeneratorExit] are not. *)
Record exn := mkExn {
  exn_class : string;
  exn_msg : string;
  is_Exception : bool
}.

(** An instance of a subclass of [Exception]. *)
Definition Exception (class msg : string) : exn := mkExn class msg true.

(** An instance of a class that derives from [BaseException] only. *)
Definition BaseException (class msg : string) : exn := mkExn class msg false.

Inductive result (A : Type) :=
| Ok (a : A)
| Raise (e : exn).
Arguments Ok {A} a.
Arguments Raise {A} e.

(** What [shutil.make_archive] did: it wrote the archive with every file
    of the directory, or it raised, having left no zip file or a zip file
    with some entries. *)
Inductive archive_outcome :=
| Archived
| Failed (remains : option (gmap string content)) (e : exn).

(** ** Calls into the outside

    One constructor per library call of the script, indexed by the type of
    what the call returns.  [BrowserPage] is the [browser.page()] of
    [close_annoying_modal], which stands before its [try]; in the other
    functions no handler stands between [browser.page()] and the calls on
    the page, and the two are one call here.  [MakeArchive] is given the
    files of the directory, if the directory exists. *)
Inductive call : Type -> Type :=
| BrowserPage : call unit
| Mkdir (d : string) : call unit
| MakeArchive (dir : option (gmap string content)) : call archive_outcome
| Goto (url : string) : call unit
| Click (selector : string) : call unit
| WaitForSelector (selector : string) (timeout : Z) : call unit
| InnerHtml (selector : string) : call string
| IsVisible (selector : string) : call bool
| SelectOption (selector value : string) (timeout : Z) : call unit
| CheckBox (selector : string) : call unit
| Fill (selector : string) (value : cell) : call unit
| Screenshot (selector : string) : call content
| HttpDownload (url : string) : call content
| ReadCsv (file : content) : call (list order_row)
| ReadHtml (html : string) : call (list (list model_row))
| HtmlToPdf (html : string) : call content
| AddFilesToPdf (files : list content) : call content.

(** A path below the output directory: a directory and a file name. *)
Definition path : Type := string * string.

(** What the script leaves behind, in the order it happened: the library
    calls with their outcomes, the files written (directory and name), the
    lines printed and the warnings logged. *)
Inductive event :=
| Called {A : Type} (c : call A) (r : result A)
| Wrote (p : path)
| Printed (line : string)
| Warned (line : string).

(** A file of the output directory: plain bytes or a zip archive, given
    by its entries. *)
Inductive file :=
| Blob (c : content)
| ZipFile (entries : gmap string content).

(** The selectors and addresses of the script. *)
Module Sel.
Definition site : string := "https://robotsparebinindustries.com".
Definition orders_csv : string := "https://robotsparebinindustries.com/orders.csv".
Definition order_link : string := "//a[contains(text(),'Order')]".
Definition modal : string := "//div[@class='modal']".
Definition ok_button : string := "//button[contains(text(), 'OK')]".
Definition show_model_info : string := "//button[contains(text(), 'Show model info')]".
Definition model_info : string := "//table[@id='model-info']".
Definition head : string := "//select[@id='head']".
Definition legs : string := "//input[@placeholder='Enter the part number for the legs']".
Definition address : string := "//input[@id='address']".
Definition preview : string := "//button[@id='preview']".
Definition order : string := "//button[@id='order']".
Definition alert : string := "//div[@class='alert alert-danger'][@role='alert']".
Definition order_another : string := "//button[@id='order-another']".
Definition receipt : string := "//div[@id='receipt']".
Definition robot_preview : string := "//div[@id='robot-preview-image']".
End Sel.

Definition MAX_SUBMISSION_ATTEMPTS : Z := 5.

(** The three directories under the output directory. *)
Definition RECEIPTS_PATH : string := "receipts".
Definition IMAGES_PATH : string := "images".
Definition PDFS_PATH : string := "pdfs".

(** ** Reading the trace *)

(** A click on the submit button of the order form. *)
Definition is_submit_click (e : event) : bool :=
  match e with
  | Called (Click s) _ => bool_decide (s = Sel.order)
  | _ => false
  end.

(** The outcome of a look at the error indicator, for a call that is one. *)
Definition alert_outcome {A : Type} (c : call A) : result A -> option (result bool) :=
  match c in call T return result T -> option (result bool) with
  | IsVisible s => fun r => if bool_decide (s = Sel.alert) then Some r else None
  | _ => fun _ => None
  end.

(** A success check that found no visible error indicator. *)
Definition is_success_check (e : event) : bool :=
  match e with
  | Called c r =>
      match alert_outcome c r with Some (Ok false) => true | _ => false end
  | _ => false
  end.

(** A success check that found the error indicator visible. *)
Definition is_failed_check (e : event) : bool :=
  match e with
  | Called c r =>
      match alert_outcome c r with Some (Ok true) => true | _ => false end
  | _ => false
  end.

(** A library call that raised. *)
Definition raised (e : event) : bool :=
  match e with
  | Called _ (Raise _) => true
  | _ => false
  end.

(** The exception of a library call that raised. *)
Definition raised_exn (e : event) : option exn :=
  match e with
  | Called _ (Raise x) => Some x
  | _ => None
  end.

(** A write into the directory of the merged documents. *)
Definition is_merged_write (e : event) : bool :=
  match e with
  | Wrote p => bool_decide (p.1 = PDFS_PATH)
  | _ => false
  end.

(** One of the interactions of [fill_the_form]. *)
Definition is_form_fill (e : event) : bool :=
  match e with
  | Called (SelectOption _ _ _) _ | Called (CheckBox _) _ | Called (Fill _ _) _ => true
  | _ => false
  end.

Definition is_warning (e : event) : bool :=
  match e with
  | Warned _ => true
  | _ => false
  end.

Fixpoint count_events (p : event -> bool) (t : list event) : nat :=
  match t with
  | [] => 0
  | e :: t' => (if p e then 1 else 0) + count_events p t'
  end.

(** No submit click comes after a success check that found no error. *)
Fixpoint no_click_after_success (t : list event) : bool :=
  match t with
  | [] => true
  | e :: t' =>
      if is_success_check e
      then Nat.eqb (count_events is_submit_click t') 0
      else no_click_after_success t'
  end.

(** What an event is to the submission loop. *)
Inductive step_kind :=
| ClickOk
| ClickRaised
| CheckSuccess
| CheckFailed
| CheckRaised
| PrintLine
| WarnLine
| Other.

Definition kind (e : event) : step_kind :=
  match e with
  | Called c r =>
      if is_submit_click e
      then (if raised e then ClickRaised else ClickOk)
      else match alert_outcome c r with
           | Some (Ok false) => CheckSuccess
           | Some (Ok true) => CheckFailed
           | Some (Raise _) => CheckRaised
           | None => Other
           end
  | Printed _ => PrintLine
  | Warned _ => WarnLine
  | Wrote _ => Other
  end.

(** The traces of a run of attempts: every attempt is a click on submit
    followed at once by the success check; a failed check is followed by
    the two messages and the next attempt; a successful check, or a call
    that raises, ends the run. *)
Fixpoint attempts (ks : list step_kind) : bool :=
  match ks with
  | [] => true
  | [ClickRaised] => true
  | [ClickOk; CheckRaised] => true
  | [ClickOk; CheckSuccess] => true
  | ClickOk :: CheckFailed :: PrintLine :: WarnLine :: rest => attempts rest
  | _ => false
  end.

(** The file names the script derives from an order number. *)
Definition receipt_name (order_number : cell) : string :=
  "receipt_" +:+ str order_number +:+ ".pdf".

Definition screenshot_name (order_number : cell) : string :=
  "screenshot_" +:+ str order_number +:+ ".png".

Definition merged_name (order_number : cell) : string :=
  "receipt_with_screenshot_" +:+ str order_number +:+ ".pdf".

(** ** The world

    The state of the outside (of type [St]), the files of the output
    directory itself, its subdirectories with their files, and the trace. *)
Record World (St : Type) := mkWorld {
  outside : St;
  root_files : gmap string file;
  subdirs : gmap string (gmap string content);
  trace : list event
}.
Arguments mkWorld {St} outside root_files subdirs trace.
Arguments outside {St} w.
Arguments root_files {St} w.
Arguments subdirs {St} w.
Arguments trace {St} w.

(** ** A scripted outside

    A small outside to run the script on: the success checks answer from a
    list (the error indicator is visible where the list says [true], gone
    once the list is used up), the modal shows up once or never, the
    orders and the catalog are given, and documents are built as text. *)
Module Demo.

Record state := mkState {
  alerts : list bool;
  modal_shown : bool
}.

Definition answer (orders : list order_row) (catalog : list model_row)
    (A : Type) (c : call A) (s : state) : state * result A :=
  match c in call T return state * result T with
  | WaitForSelector sel _ =>
      if bool_decide (sel = Sel.modal) && negb (modal_shown s)
      then (s, Raise (Exception "TimeoutError" "Timeout 2000ms exceeded."))
      else (mkState (alerts s) false, Ok tt)
  | IsVisible _ =>
      match alerts s with
      | b :: rest => (mkState rest (modal_shown s), Ok b)
      | [] => (s, Ok false)
      end
  | InnerHtml sel => (s, Ok "html")
  | Screenshot _ => (s, Ok "png")
  | HttpDownload _ => (s, Ok "csv")
  | ReadCsv _ => (s, Ok orders)
  | ReadHtml _ => (s, Ok [catalog])
  | HtmlToPdf html => (s, Ok ("pdf(" +:+ html +:+ ")"))
  | AddFilesToPdf files => (s, Ok ("merged(" +:+ String.concat "," files +:+ ")"))
  | MakeArchive _ => (s, Ok Archived)
  | BrowserPage | Mkdir _ | Goto _ | Click _ | SelectOption _ _ _ | CheckBox _ | Fill _ _ =>
      (s, Ok tt)
  end.

Definition order1 : order_row :=
  OrderRow (Some (SInt 1)) (Some (SInt 1)) (Some (SInt 2)) (Some (SInt 3))
    (Some (SStr "Address 123")).

Definition order2 : order_row :=
  OrderRow (Some (SInt 2)) (Some (SInt 2)) (Some (SInt 4)) (Some (SInt 1))
    (Some (SStr "Elm Street 7")).

Definition orders : list order_row := [order1; order2].

Definition catalog : list model_row :=
  [ModelRow (Some (SStr "Roll-a-thor")) (SInt 1);
   ModelRow (Some (SStr "Peanut crusher")) (SInt 2)].

(** The outside of the examples. *)
Definition outside_world : forall A : Type, call A -> state -> state * result A :=
  answer orders catalog.

(** The same outside without a network: the download raises. *)
Definition offline (A : Type) (c : call A) (s : state) : state * result A :=
  match c in call T return state * result T with
  | HttpDownload _ => (s, Raise (Exception "ConnectionError" "Max retries exceeded"))
  | c' => outside_world _ c' s
  end.

(** The same outside with a submit button that cannot be clicked. *)
Definition stuck (A : Type) (c : call A) (s : state) : state * result A :=
  match c in call T return state * result T with
  | Click sel =>
      if bool_decide (sel = Sel.order)
      then (s, Raise (Exception "TimeoutError" "Timeout 30000ms exceeded."))
      else (s, Ok tt)
  | c' => outside_world _ c' s
  end.

(** The same outside on a site that shows no receipt: the read of its
    markup times out. *)
Definition no_receipt (A : Type) (c : call A) (s : state) : state * result A :=
  match c in call T return state * result T with
  | InnerHtml sel =>
      if bool_decide (sel = Sel.receipt)
      then (s, Raise (Exception "TimeoutError" "Timeout 30000ms exceeded."))
      else (s, Ok "html")
  | c' => outside_world _ c' s
  end.

(** The same outside, interrupted from the keyboard during a wait. *)
Definition interrupted (A : Type) (c : call A) (s : state) : state * result A :=
  match c in call T return state * result T with
  | WaitForSelector _ _ => (s, Raise (BaseException "KeyboardInterrupt" ""))
  | c' => outside_world _ c' s
  end.

(** The same outside with no output directory to make the three
    directories in. *)
Definition no_output_dir (A : Type) (c : call A) (s : state) : state * result A :=
  match c in call T return state * result T with
  | Mkdir d => (s, Raise (Exception "FileNotFoundError" d))
  | c' => outside_world _ c' s
  end.

(** The same outside with no browser to give a page. *)
Definition no_browser (A : Type) (c : call A) (s : state) : state * result A :=
  match c in call T return state * result T with
  | BrowserPage => (s, Raise (Exception "Error" "Browser has been closed"))
  | c' => outside_world _ c' s
  end.

(** A first run: nothing in the output directory; the modal shows up once
    and the first submission of the first order fails. *)
Definition fresh : World state :=
  mkWorld (mkState [true] true) ∅ ∅ [].

(** The output directory of an earlier run over other orders. *)
Definition with_leftover : World state :=
  mkWorld (mkState [] true) ∅
    {[ "receipts" := ∅; "images" := ∅;
       "pdfs" := {[ "receipt_with_screenshot_99.pdf" := "merged earlier" ]} ]} [].

(** The output directory of an earlier run over the same orders. *)
Definition rerun : World state :=
  mkWorld (mkState [] true) ∅
    {[ "receipts" := ∅; "images" := ∅;
       "pdfs" := {[ "receipt_with_screenshot_1.pdf" := "merged earlier" ]} ]} [].

(** An order with its head already replaced by the model name, in a world
    where every submission fails. *)
Definition order1_mapped : order_row :=
  OrderRow (Some (SInt 1)) (Some (SStr "Roll-a-thor")) (Some (SInt 2)) (Some (SInt 3))
    (Some (SStr "Address 123")).

Definition always_failing : World state :=
  mkWorld (mkState [true; true; true; true; true; true] false) ∅
    {[ "receipts" := ∅; "images" := ∅; "pdfs" := ∅ ]} [].

(** A first run on a site that refuses the first order six times. *)
Definition rejecting : World state :=
  mkWorld (mkState [true; true; true; true; true; true] true) ∅ ∅ [].

(** A model table with a part number that comes twice. *)
Definition duplicated : list model_row :=
  [ModelRow (Some (SStr "Roll-a-thor")) (SInt 1);
   ModelRow (Some (SStr "Peanut crusher")) (SInt 2);
   ModelRow (Some (SStr "D.A.V.E")) (SInt 1)].

End Demo.

(** ** The monad of the script *)

Section Script.

(** The outside: a state and, for every call, the new state and either
    the value returned or the exception raised. *)
Context {St : Type}.
Variable respond : forall A : Type, call A -> St -> St * result A.

(** [get_output_dir()], as text. *)
Variable output_dir : string.

Local Abbreviation World := (World St).

Definition M (A : Type) : Type := World -> World * result A.

Definition ret {A : Type} (a : A) : M A := fun w => (w, Ok a).

Definition raise {A : Type} (e : exn) : M A := fun w => (w, Raise e).

Definition bind {A B : Type} (m : M A) (k : A -> M B) : M B :=
  fun w =>
    match m w with
    | (w', Ok a) => k a w'
    | (w', Raise e) => (w', Raise e)
    end.

#[local] Instance M_ret : MRet M := @ret.
#[local] Instance M_bind : MBind M := fun A B k m => bind m k.

(** [try: m  except Exception as e: h e]: the handler takes the instances
    of [Exception]; any other exception goes on. *)
Definition try_except {A : Type} (m : M A) (h : exn -> M A) : M A :=
  fun w =>
    match m w with
    | (w', Ok a) => (w', Ok a)
    | (w', Raise e) => if is_Exception e then h e w' else (w', Raise e)
    end.

Definition emit (e : event) : M unit :=
  fun w => (mkWorld (outside w) (root_files w) (subdirs w) (trace w ++ [e]), Ok tt).

(** A library call: the outside answers, the call and its outcome are
    recorded. *)
Definition ext_call {A : Type} (c : call A) : M A :=
  fun w =>
    let '(s, r) := respond A c (outside w) in
    (mkWorld s (root_files w) (subdirs w) (trace w ++ [Called c r]), r).

Definition print (line : string) : M unit := emit (Printed line).

Definition logger_warning (line : string) : M unit := emit (Warned line).

(** *** The output directory *)

Definition path_exists (d : string) : M bool :=
  fun w => (w, Ok (bool_decide (is_Some (subdirs w !! d)))).

(** The world with the new, empty directory [d]. *)
Definition created (d : string) (w : World) : World :=
  mkWorld (outside w) (root_files w) (<[d := ∅]> (subdirs w)) (trace w).

Definition create_dir (d : string) : M unit :=
  fun w => (created d w, Ok tt).

(** [Path.mkdir()]: [FileExistsError] on a directory that exists;
    otherwise the operating system makes the directory or refuses
    ([FileNotFoundError] when the output directory itself is missing). *)
Definition mkdir (d : string) : M unit :=
  fun w =>
    match subdirs w !! d with
    | Some _ => (w, Raise (Exception "FileExistsError" d))
    | None => (ext_call (Mkdir d) ;; create_dir d) w
    end.

(** Writing [p] creates or replaces the file; the directory must exist. *)
Definition write_file (p : path) (c : content) : M unit :=
  fun w =>
    match subdirs w !! p.1 with
    | Some files =>
        (mkWorld (outside w) (root_files w) (<[p.1 := <[p.2 := c]> files]> (subdirs w))
           (trace w ++ [Wrote p]),
         Ok tt)
    | None => (w, Raise (Exception "FileNotFoundError" p.1))
    end.

Definition read_file (p : path) : M content :=
  fun w =>
    match subdirs w !! p.1 ≫= (.!! p.2) with
    | Some c => (w, Ok c)
    | None => (w, Raise (Exception "FileNotFoundError" p.2))
    end.

(** A file of the output directory itself. *)
Definition write_root (name : string) (f : file) : M unit :=
  fun w =>
    (mkWorld (outside w) (<[name := f]> (root_files w)) (subdirs w) (trace w ++ [Wrote (".", name)]),
     Ok tt).

(** Lines 18 to 25: each directory is made when it does not exist. *)
Definition ensure_dir (d : string) : M unit :=
  e ← path_exists d;
  if negb e then mkdir d else ret tt.

Definition module_init : M unit :=
  ensure_dir RECEIPTS_PATH ;;
  ensure_dir IMAGES_PATH ;;
  ensure_dir PDFS_PATH.

(** *** The functions of [tasks.py] *)

Definition open_robot_order_website : M unit :=
  ext_call (Goto Sel.site).

(** [HTTP().download(url, output_path, overwrite=True)] followed by
    [pd.read_csv(output_path)], which parses the bytes just written. *)
Definition get_orders : M (list order_row) :=
  c ← ext_call (HttpDownload Sel.orders_csv);
  write_root "orders.csv" (Blob c) ;;
  orders_df ← ext_call (ReadCsv c);
  ret orders_df.

Definition go_to_place_order_page : M unit :=
  ext_call (Click Sel.order_link).

(** [browser.page()] stands before the [try]; the wait and the click are
    inside it. *)
Definition close_annoying_modal : M unit :=
  ext_call BrowserPage ;;
  try_except
    (ext_call (WaitForSelector Sel.modal 2000) ;;
     ext_call (Click Sel.ok_button))
    (fun e => logger_warning ("Modal did not appear: " +:+ exn_msg e)).

(** [pd.read_html(...)[0]]. *)
Definition first_table {A : Type} (tables : list A) : M A :=
  match tables with
  | df :: _ => ret df
  | [] => raise (Exception "IndexError" "list index out of range")
  end.

(** The dictionary comprehension
    [{item["Part number"]: item["Model name"] for item in table_dict}]:
    the items are inserted in the order of the list. *)
Definition parts_dict_of (table_dict : list model_row) : gmap scalar cell :=
  foldl (fun d item => <[Part_number item := Model_name item]> d) ∅ table_dict.

Definition get_model_parts : M (gmap scalar cell) :=
  ext_call (Click Sel.show_model_info) ;;
  html_table ← ext_call (InnerHtml Sel.model_info);
  let html_table := "<table>" +:+ html_table +:+ "</table>" in
  tables ← ext_call (ReadHtml html_table);
  df ← first_table tables;
  let table_dict := df in
  ret (parts_dict_of table_dict).

(** [head + ' head']: defined on strings only; an integer or the missing
    value (a float) on the left raises [TypeError]. *)
Definition add_str (c : cell) (s : string) : M string :=
  match c with
  | Some (SStr h) => ret (h +:+ s)
  | _ => raise (Exception "TypeError" "unsupported operand type(s) for +")
  end.

Definition fill_the_form (row : order_row) : M unit :=
  let '(OrderRow _ head body legs address) := row in
  print (str head) ;;
  value ← add_str head " head";
  ext_call (SelectOption Sel.head value 3000) ;;
  ext_call (CheckBox ("//input[@type='radio'][@name='body'][@id='id-body-" +:+ str body +:+ "']")) ;;
  ext_call (Fill Sel.legs (Some (SStr (str legs)))) ;;
  ext_call (Fill Sel.address address).

Definition preview_order : M unit :=
  ext_call (Click Sel.preview).

Definition check_order_success : M bool :=
  has_error_message ← ext_call (IsVisible Sel.alert);
  if (has_error_message : bool) then ret false else ret true.

(** The [while] loop of [submit_until_success], from the values of
    [success] and [count] at its head.  It terminates because [count]
    grows towards the bound. *)
Equations? submit_loop (success : bool) (count : Z) : M unit
  by wf (Z.to_nat (MAX_SUBMISSION_ATTEMPTS + 1 - count)) lt :=
submit_loop success count with inspect (negb success && (count <=? MAX_SUBMISSION_ATTEMPTS)%Z) := {
  | exist _ true Hcond =>
      let count := count + 1 in
      ext_call (Click Sel.order) ;;
      success ← check_order_success;
      (if negb success
       then print "Failed to submit order, retrying..." ;;
            logger_warning "Failed to submit order, retrying..."
       else ret tt) ;;
      submit_loop success count
  | exist _ false Hcond => ret tt }.
Proof.
  apply andb_true_iff in Hcond as [_ Hle].
  apply Z.leb_le in Hle. unfold MAX_SUBMISSION_ATTEMPTS in *. lia.
Qed.

Definition submit_until_success : M unit :=
  let success := false in
  let count := 0 in
  submit_loop success count.

Definition click_order_another : M unit :=
  ext_call (Click Sel.order_another).

Definition store_receipt_as_pdf (order_number : cell) : M path :=
  receipt_html ← ext_call (InnerHtml Sel.receipt);
  let receipt_path := (RECEIPTS_PATH, receipt_name order_number) in
  pdf ← ext_call (HtmlToPdf receipt_html);
  write_file receipt_path pdf ;;
  ret receipt_path.

Definition screenshot_robot (order_number : cell) : M path :=
  let screenshot_path := (IMAGES_PATH, screenshot_name order_number) in
  png ← ext_call (Screenshot Sel.robot_preview);
  write_file screenshot_path png ;;
  ret screenshot_path.

(** [add_files_to_pdf([pdf_file, screenshot], target_document=output_path,
    append=False)] reads the two files and writes a new document. *)
Definition embed_screenshot_to_receipt (order_number : cell) (screenshot pdf_file : path) : M unit :=
  let output_path := (PDFS_PATH, merged_name order_number) in
  pdf ← read_file pdf_file;
  png ← read_file screenshot;
  merged ← ext_call (AddFilesToPdf [pdf; png]);
  write_file output_path merged.

(** [shutil.make_archive(base, "zip", root_dir=PDFS_PATH)], a library
    call.  When it returns, every file of the directory is an entry of the
    zip file under its own name (an empty zip file when the library
    accepts a missing directory).  When it raises, the zip file is what
    the call left, if it left one, and the exception goes on. *)
Definition archive_receipts : M unit :=
  fun w =>
    (outcome ← ext_call (MakeArchive (subdirs w !! PDFS_PATH));
     match outcome with
     | Archived =>
         write_root "robot_orders_receipts.zip"
           (ZipFile (default ∅ (subdirs w !! PDFS_PATH))) ;;
         print ("ZIP archive created: " +:+ output_dir +:+ "/robot_orders_receipts.zip")
     | Failed remains e =>
         match remains with
         | Some entries => write_root "robot_orders_receipts.zip" (ZipFile entries)
         | None => ret tt
         end ;;
         raise e
     end) w.

(** [orders_df["Head"].map(model_parts_dict)] on one value: the value the
    dictionary holds for it, the missing value when there is none. *)
Definition series_map (d : gmap scalar cell) (c : cell) : cell :=
  match c with
  | Some k => match d !! k with Some v => v | None => NaN end
  | None => NaN
  end.

(** [orders_df["Head"] = orders_df["Head"].map(model_parts_dict)]. *)
Definition map_head (d : gmap scalar cell) (orders_df : list order_row) : list order_row :=
  (fun r => OrderRow (Order_number r) (series_map d (Head r)) (Body r) (Legs r) (Address r))
    <$> orders_df.

(** [for x in xs: body x]. *)
Fixpoint for_each {A : Type} (xs : list A) (body : A -> M unit) : M unit :=
  match xs with
  | [] => ret tt
  | x :: xs' => body x ;; for_each xs' body
  end.

(** The body of the loop over the orders (lines 70 to 77). *)
Definition process_order (row : order_row) : M unit :=
  close_annoying_modal ;;
  fill_the_form row ;;
  preview_order ;;
  submit_until_success ;;
  receipt_path ← store_receipt_as_pdf (Order_number row);
  screenshot_path ← screenshot_robot (Order_number row);
  embed_screenshot_to_receipt (Order_number row) screenshot_path receipt_path ;;
  click_order_another.

Definition order_robots_from_RobotSpareBin : M unit :=
  orders_df ← get_orders;
  open_robot_order_website ;;
  go_to_place_order_page ;;
  close_annoying_modal ;;
  model_parts_dict ← get_model_parts;
  let orders_df := map_head model_parts_dict orders_df in
  for_each orders_df process_order ;;
  archive_receipts.

(** Importing the module and running its task. *)
Definition program : M unit :=
  module_init ;;
  order_robots_from_RobotSpareBin.

(** ** What the theorems speak of *)

(** The files of the directory of the merged documents (none when the
    directory does not exist). *)
Definition pdfs (w : World) : gmap string content :=
  default ∅ (subdirs w !! PDFS_PATH).

(** The archive the run left in the output directory, if any. *)
Definition archive (w : World) : option (gmap string content) :=
  match root_files w !! "robot_orders_receipts.zip" with
  | Some (ZipFile entries) => Some entries
  | _ => None
  end.

(** The names of the merged documents of a table of orders. *)
Definition merged_names (orders_df : list order_row) : list string :=
  (fun row => merged_name (Order_number row)) <$> orders_df.

(** The two calls of [close_annoying_modal]. *)
Definition modal_call {A : Type} (c : call A) : bool :=
  match c with
  | WaitForSelector s _ => bool_decide (s = Sel.modal)
  | Click s => bool_decide (s = Sel.ok_button)
  | _ => false
  end.

(** The file [p] exists. *)
Definition has_file (w : World) (p : path) : Prop :=
  is_Some (subdirs w !! p.1 ≫= (.!! p.2)).

(** ** Relations every step of a program keeps

    [respects R m]: running [m] takes a world to one related to it by [R],
    whether [m] returns or raises.  For a preorder [R] this goes through
    sequences, handlers and loops, so a property of a whole function
    follows from its library calls and file operations. *)

Definition respects (R : relation World) {A : Type} (m : M A) : Prop :=
  forall w, R w (m w).1.

(** The world after a library call, after an event, after a write. *)
Definition answered {A : Type} (c : call A) (s : St) (r : result A) (w : World) : World :=
  mkWorld s (root_files w) (subdirs w) (trace w ++ [Called c r]).

Definition logged (e : event) (w : World) : World :=
  mkWorld (outside w) (root_files w) (subdirs w) (trace w ++ [e]).

Definition written (p : path) (c : content) (files : gmap string content) (w : World) : World :=
  mkWorld (outside w) (root_files w) (<[p.1 := <[p.2 := c]> files]> (subdirs w))
    (trace w ++ [Wrote p]).

(** *** The relations used below *)

(** As many events of one kind after as before. *)
Definition same_count (p : event -> bool) : relation World :=
  fun w w' => count_events p (trace w') = count_events p (trace w).

(** The directory of the merged documents holds what it held. *)
Definition same_pdfs : relation World :=
  fun w w' => subdirs w' !! PDFS_PATH = subdirs w !! PDFS_PATH.

(** No directory and no file disappears. *)
Definition keeps_files : relation World :=
  fun w w' =>
    forall d files, subdirs w !! d = Some files ->
      exists files', subdirs w' !! d = Some files' /\ dom files ⊆ dom files'.

(** The steps before the loop over the orders, after the download. *)
Definition site_opening : M unit :=
  open_robot_order_website ;;
  go_to_place_order_page ;;
  close_annoying_modal.

(** The warning of [close_annoying_modal]. *)
Definition modal_warning (e : exn) : event :=
  Warned ("Modal did not appear: " +:+ exn_msg e).

(** The steps of one order after the submission (lines 74 to 77): the
    receipt, the screenshot, the merge and the reset of the form. *)
Definition capture_and_reset (row : order_row) : M unit :=
  receipt_path ← store_receipt_as_pdf (Order_number row);
  screenshot_path ← screenshot_robot (Order_number row);
  embed_screenshot_to_receipt (Order_number row) screenshot_path receipt_path ;;
  click_order_another.

(** The events of a capture that returned: the markup of the receipt
    read and printed to PDF, the screenshot taken, the two merged, each
    file written under the name of the order, and the click on "order
    another". *)
Definition capture_events (row : order_row) (html : string) (pdf png merged : content) :
    list event :=
  [Called (InnerHtml Sel.receipt) (Ok html);
   Called (HtmlToPdf html) (Ok pdf);
   Wrote (RECEIPTS_PATH, receipt_name (Order_number row));
   Called (Screenshot Sel.robot_preview) (Ok png);
   Wrote (IMAGES_PATH, screenshot_name (Order_number row));
   Called (AddFilesToPdf [pdf; png]) (Ok merged);
   Wrote (PDFS_PATH, merged_name (Order_number row));
   Called (Click Sel.order_another) (Ok tt)].

(** The trace only grows. *)
Definition extends_trace : relation World :=
  fun w w' => exists t, trace w' = trace w ++ t.

(** ** Further readers of the trace, and what a program may be held to *)

(** An event of one of the two calls of [close_annoying_modal]. *)
Definition modal_event (e : event) : bool :=
  match e with
  | Called c _ => modal_call c
  | _ => false
  end.

(** A library call that raised outside [close_annoying_modal]. *)
Definition uncaught (e : event) : bool :=
  raised e && negb (modal_event e).

(** A wait for the modal. *)
Definition is_modal_wait (e : event) : bool :=
  match e with
  | Called (WaitForSelector s _) _ => bool_decide (s = Sel.modal)
  | _ => false
  end.

Definition is_printed (e : event) : bool :=
  match e with
  | Printed _ => true
  | _ => false
  end.

(** [strict m]: [m] swallows no exception of a library call other than
    the modal's.  When it returns, no such call has raised; when it
    raises, at most one has. *)
Definition strict {A : Type} (m : M A) : Prop :=
  forall w,
    match (m w).2 with
    | Ok _ => count_events uncaught (trace (m w).1) = count_events uncaught (trace w)
    | Raise _ => (count_events uncaught (trace (m w).1) <= S (count_events uncaught (trace w)))%nat
    end.

(** The archive file of the output directory is what it was. *)
Definition same_zip : relation World :=
  fun w w' =>
    root_files w' !! "robot_orders_receipts.zip" = root_files w !! "robot_orders_receipts.zip".

(** A call of [shutil.make_archive], whatever became of it. *)
Definition is_make_archive (e : event) : bool :=
  match e with
  | Called (MakeArchive _) _ => true
  | _ => false
  end.

(** No call of [make_archive] is forgotten, and as long as none is made
    the archive file is what it was. *)
Definition zip_guard : relation World :=
  fun w w' =>
    (count_events is_make_archive (trace w) <= count_events is_make_archive (trace w'))%nat /\
    (count_events is_make_archive (trace w') = count_events is_make_archive (trace w) ->
     same_zip w w').

(** * Proofs *)

(** ** Counting events *)

Lemma count_events_app (p : event -> bool) (t1 t2 : list event) :
  count_events p (t1 ++ t2) = (count_events p t1 + count_events p t2)%nat.
Proof. induction t1 as [|e t1 IH]; simpl; [done | rewrite IH; lia]. Qed.

Lemma count_events_snoc (p : event -> bool) (t : list event) (e : event) :
  count_events p (t ++ [e]) = (count_events p t + if p e then 1 else 0)%nat.
Proof. rewrite count_events_app. simpl. lia. Qed.

(** ** Reasoning about the monad *)

Lemma bind_unfold {A B : Type} (m : M A) (k : A -> M B) (w : World) :
  (m ≫= k) w =
  match m w with
  | (w', Ok a) => k a w'
  | (w', Raise e) => (w', Raise e)
  end.
Proof. reflexivity. Qed.

Lemma bind_ok {A B : Type} (m : M A) (k : A -> M B) (w w' : World) (a : A) :
  m w = (w', Ok a) -> (m ≫= k) w = k a w'.
Proof. intros H. rewrite bind_unfold, H. reflexivity. Qed.

(** A sequence that returns normally went through both of its parts. *)
Lemma bind_ok_inv {A B : Type} (m : M A) (k : A -> M B) (w w' : World) (b : B) :
  (m ≫= k) w = (w', Ok b) ->
  exists w1 a, m w = (w1, Ok a) /\ k a w1 = (w', Ok b).
Proof.
  rewrite bind_unfold. destruct (m w) as [w1 [a|e]]; intros H.
  - eauto.
  - discriminate.
Qed.

(** The unfolding of the [while] loop. *)
Lemma submit_loop_eq (success : bool) (count : Z) :
  submit_loop success count =
  if negb success && (count <=? MAX_SUBMISSION_ATTEMPTS)%Z
  then
    ext_call (Click Sel.order) ;;
    success' ← check_order_success;
    (if negb success'
     then print "Failed to submit order, retrying..." ;;
          logger_warning "Failed to submit order, retrying..."
     else ret tt) ;;
    submit_loop success' (count + 1)
  else ret tt.
Proof.
  rewrite submit_loop_equation_1. unfold submit_loop_clause_1.
  destruct (inspect _) as [[] Hcond]; simpl; rewrite Hcond; reflexivity.
Qed.

Section Respects.

Context (R : relation World) `{!PreOrder R}.

Lemma respects_ret {A : Type} (a : A) : respects R (ret a).
Proof. intros w. reflexivity. Qed.

Lemma respects_raise {A : Type} (e : exn) : respects R (@raise A e).
Proof. intros w. reflexivity. Qed.

Lemma respects_bind {A B : Type} (m : M A) (k : A -> M B) :
  respects R m -> (forall a, respects R (k a)) -> respects R (m ≫= k).
Proof.
  intros Hm Hk w. rewrite bind_unfold.
  specialize (Hm w). destruct (m w) as [w1 [a|e]]; simpl in *.
  - etrans; [exact Hm | apply Hk].
  - exact Hm.
Qed.

Lemma respects_try_except {A : Type} (m : M A) (h : exn -> M A) :
  respects R m -> (forall e, respects R (h e)) -> respects R (try_except m h).
Proof.
  intros Hm Hh w. unfold try_except.
  specialize (Hm w). destruct (m w) as [w1 [a|e]]; simpl in *.
  - exact Hm.
  - destruct (is_Exception e); simpl.
    + etrans; [exact Hm | apply Hh].
    + exact Hm.
Qed.

Lemma respects_ext_call {A : Type} (c : call A) :
  (forall w s r, R w (answered c s r w)) -> respects R (ext_call c).
Proof.
  intros H w. unfold ext_call.
  destruct (respond A c (outside w)) as [s r]. apply H.
Qed.

Lemma respects_emit (e : event) :
  (forall w, R w (logged e w)) -> respects R (emit e).
Proof. intros H w. apply H. Qed.

Lemma respects_write_file (p : path) (c : content) :
  (forall w files, subdirs w !! p.1 = Some files -> R w (written p c files w)) ->
  respects R (write_file p c).
Proof.
  intros H w. unfold write_file.
  destruct (subdirs w !! p.1) as [files|] eqn:E; simpl.
  - by apply H.
  - reflexivity.
Qed.

Lemma respects_read_file (p : path) : respects R (read_file p).
Proof.
  intros w. unfold read_file.
  destruct (subdirs w !! p.1 ≫= _); reflexivity.
Qed.

Lemma respects_path_exists (d : string) : respects R (path_exists d).
Proof. intros w. reflexivity. Qed.

Lemma respects_mkdir (d : string) :
  respects R (ext_call (Mkdir d)) ->
  (forall w, subdirs w !! d = None -> R w (created d w)) ->
  respects R (mkdir d).
Proof.
  intros Hcall H w. unfold mkdir.
  destruct (subdirs w !! d) eqn:E; simpl.
  - reflexivity.
  - rewrite bind_unfold. specialize (Hcall w). unfold ext_call in *.
    destruct (respond _ (Mkdir d) (outside w)) as [s [u|e]]; simpl in *.
    + etrans; [exact Hcall | by apply H].
    + exact Hcall.
Qed.

Lemma respects_write_root (name : string) (f : file) :
  (forall w, R w (mkWorld (outside w) (<[name := f]> (root_files w)) (subdirs w)
                    (trace w ++ [Wrote (".", name)]))) ->
  respects R (write_root name f).
Proof. intros H w. apply H. Qed.

Lemma respects_archive_receipts :
  (forall dir, respects R (ext_call (MakeArchive dir))) ->
  (forall f, respects R (write_root "robot_orders_receipts.zip" f)) ->
  (forall line, respects R (print line)) ->
  respects R archive_receipts.
Proof.
  intros Hcall Hroot Hprint w. unfold archive_receipts.
  apply respects_bind; [apply Hcall |].
  intros [|[entries|] e].
  - apply respects_bind; [apply Hroot | intros _; apply Hprint].
  - apply respects_bind; [apply Hroot | intros _; apply respects_raise].
  - apply respects_bind; [apply respects_ret | intros _; apply respects_raise].
Qed.

Lemma respects_for_each {A : Type} (xs : list A) (body : A -> M unit) :
  (forall x, respects R (body x)) -> respects R (for_each xs body).
Proof.
  intros Hb. induction xs as [|x xs IH]; simpl.
  - apply respects_ret.
  - apply respects_bind; [apply Hb | intros _; exact IH].
Qed.

(** The loop of [submit_until_success], by induction on the number of
    iterations still allowed. *)
Lemma respects_submit_loop (success : bool) (count : Z) :
  respects R (ext_call (Click Sel.order)) ->
  respects R (ext_call (IsVisible Sel.alert)) ->
  respects R (print "Failed to submit order, retrying...") ->
  respects R (logger_warning "Failed to submit order, retrying...") ->
  respects R (submit_loop success count).
Proof.
  intros Hclick Hvis Hprint Hwarn.
  remember (Z.to_nat (MAX_SUBMISSION_ATTEMPTS + 1 - count)) as n eqn:Hn.
  revert success count Hn.
  induction n as [n IH] using lt_wf_ind. intros success count Hn.
  rewrite submit_loop_eq.
  destruct (negb success && (count <=? MAX_SUBMISSION_ATTEMPTS)%Z) eqn:Hcond.
  - apply andb_true_iff in Hcond as [_ Hle]. apply Z.leb_le in Hle.
    apply respects_bind; [exact Hclick | intros _].
    apply respects_bind.
    { unfold check_order_success. apply respects_bind; [exact Hvis | intros b].
      destruct b; apply respects_ret. }
    intros success'. apply respects_bind.
    { destruct (negb success').
      - apply respects_bind; [exact Hprint | intros _; exact Hwarn].
      - apply respects_ret. }
    intros _. eapply IH; [| reflexivity].
    subst n. unfold MAX_SUBMISSION_ATTEMPTS in *. lia.
  - apply respects_ret.
Qed.

End Respects.

#[local] Instance same_count_preorder (p : event -> bool) : PreOrder (same_count p).
Proof.
  split.
  - intros w. reflexivity.
  - intros w1 w2 w3 H12 H23. unfold same_count in *. congruence.
Qed.

#[local] Instance same_pdfs_preorder : PreOrder same_pdfs.
Proof.
  split.
  - intros w. reflexivity.
  - intros w1 w2 w3 H12 H23. unfold same_pdfs in *. congruence.
Qed.

#[local] Instance keeps_files_preorder : PreOrder keeps_files.
Proof.
  split.
  - intros w d files H. exists files. split; [exact H | reflexivity].
  - intros w1 w2 w3 H12 H23 d files H.
    destruct (H12 d files H) as (files2 & H2 & Hsub2).
    destruct (H23 d files2 H2) as (files3 & H3 & Hsub3).
    exists files3. split; [exact H3 | set_solver].
Qed.

(** Writing a file into an existing directory. *)
Lemma written_keeps_files (p : path) (c : content) (files : gmap string content) (w : World) :
  subdirs w !! p.1 = Some files -> keeps_files w (written p c files w).
Proof.
  intros Hp d files0 Hd. simpl.
  destruct (decide (p.1 = d)) as [Heq|Hne].
  - subst d. rewrite lookup_insert_eq. eexists. split; [reflexivity |].
    rewrite Hp in Hd. injection Hd as <-.
    rewrite dom_insert_L. set_solver.
  - rewrite lookup_insert_ne by done. exists files0. split; [exact Hd | reflexivity].
Qed.

#[local] Instance extends_trace_preorder : PreOrder extends_trace.
Proof.
  split.
  - intros w. exists []. by rewrite app_nil_r.
  - intros w1 w2 w3 [t1 H12] [t2 H23]. exists (t1 ++ t2).
    rewrite H23, H12. by rewrite app_assoc.
Qed.

Lemma created_keeps_files (d : string) (w : World) :
  subdirs w !! d = None -> keeps_files w (created d w).
Proof.
  intros Hd d' files Hd'. simpl. exists files. split; [| reflexivity].
  rewrite lookup_insert_ne; [done |]. intros ->. congruence.
Qed.

Lemma same_subdirs_keeps_files (w w' : World) :
  subdirs w' = subdirs w -> keeps_files w w'.
Proof. intros Heq d files Hd. exists files. rewrite Heq. split; [done | reflexivity]. Qed.

(** The leaves of a [respects] goal: one library call, one event, one
    write. *)
Ltac respects_leaf :=
  intros;
  first
    [ apply written_keeps_files; assumption
    | apply created_keeps_files; assumption
    | apply same_subdirs_keeps_files; reflexivity
    | unfold same_count, same_pdfs, same_zip, keeps_files,
        answered, logged, written, created; simpl;
      first
        [ reflexivity
        | rewrite count_events_snoc; simpl;
          repeat match goal with
                 | |- context [match ?r with Ok _ => _ | Raise _ => _ end] => destruct r
                 end;
          simpl; try rewrite Nat.add_0_r; reflexivity
        | rewrite lookup_insert_ne by discriminate; reflexivity
        | unfold extends_trace; simpl; eexists; reflexivity
        | unfold extends_trace; simpl; exists []; symmetry; apply app_nil_r
        | eauto ] ].

(** The structure of a [respects] goal. *)
Ltac respects_step :=
  lazymatch goal with
  | |- PreOrder _ => exact _
  | |- respects _ (mbind _ _) => apply respects_bind
  | |- respects _ (ret _) => apply respects_ret
  | |- respects _ (raise _) => apply respects_raise
  | |- respects _ (try_except _ _) => apply respects_try_except
  | |- respects _ (for_each _ _) => apply respects_for_each
  | |- respects _ (read_file _) => apply respects_read_file
  | |- respects _ (ext_call _) => apply respects_ext_call; first [exact _ | respects_leaf]
  | |- respects _ (emit _) => apply respects_emit; first [exact _ | respects_leaf]
  | |- respects _ (print _) => apply respects_emit; first [exact _ | respects_leaf]
  | |- respects _ (logger_warning _) => apply respects_emit; first [exact _ | respects_leaf]
  | |- respects _ (write_file _ _) => apply respects_write_file; first [exact _ | respects_leaf]
  | |- respects _ (path_exists _) => apply respects_path_exists
  | |- respects _ (mkdir _) => apply respects_mkdir; first [exact _ | solve [respects_leaf] | idtac]
  | |- respects _ (write_root _ _) => apply respects_write_root; first [exact _ | respects_leaf]
  | |- respects _ archive_receipts => apply respects_archive_receipts
  | |- respects _ (submit_loop _ _) => apply respects_submit_loop
  | |- respects _ (if ?b then _ else _) => destruct b
  | |- respects _ (match ?x with _ => _ end) => destruct x
  | |- forall _, _ => intros ?; cbv beta
  end.

(** ** The modal dialog *)

Lemma close_annoying_modal_eq (w : World) :
  close_annoying_modal w =
  match respond _ BrowserPage (outside w) with
  | (s0, Raise e) => (answered BrowserPage s0 (Raise e) w, Raise e)
  | (s0, Ok u0) =>
      let w0 := answered BrowserPage s0 (Ok u0) w in
      match respond _ (WaitForSelector Sel.modal 2000) s0 with
      | (s1, Raise e) =>
          let w1 := answered (WaitForSelector Sel.modal 2000) s1 (Raise e) w0 in
          if is_Exception e then (logged (modal_warning e) w1, Ok tt) else (w1, Raise e)
      | (s1, Ok u1) =>
          let w1 := answered (WaitForSelector Sel.modal 2000) s1 (Ok u1) w0 in
          match respond _ (Click Sel.ok_button) s1 with
          | (s2, Raise e) =>
              let w2 := answered (Click Sel.ok_button) s2 (Raise e) w1 in
              if is_Exception e then (logged (modal_warning e) w2, Ok tt) else (w2, Raise e)
          | (s2, Ok u2) => (answered (Click Sel.ok_button) s2 (Ok u2) w1, Ok tt)
          end
      end
  end.
Proof.
  unfold close_annoying_modal. rewrite bind_unfold. unfold ext_call at 1.
  destruct (respond _ BrowserPage (outside w)) as [s0 [u0|e0]]; [| reflexivity].
  unfold try_except. rewrite bind_unfold. unfold ext_call at 1. simpl.
  destruct (respond _ (WaitForSelector Sel.modal 2000) s0) as [s1 [u1|e1]].
  - unfold ext_call. simpl.
    destruct (respond _ (Click Sel.ok_button) s1) as [s2 [[]|e2]]; [reflexivity |].
    by destruct (is_Exception e2).
  - by destruct (is_Exception e1).
Qed.

(** C10, as the code has it: [close_annoying_modal] raises what
    [browser.page()], which stands before the [try], raises, and what the
    wait or the click raises that is no instance of [Exception]; in every
    other case it returns normally.  An instance of [Exception] raised by
    the wait for the modal or by the click on its OK button (any one, not
    only the timeout) is caught: the warning with its message is the one
    thing logged after it.  No file changes. *)
Theorem close_annoying_modal_catches_exceptions (w : World) :
  (close_annoying_modal w).2 =
    match respond _ BrowserPage (outside w) with
    | (_, Raise e) => Raise e
    | (s0, Ok _) =>
        match respond _ (WaitForSelector Sel.modal 2000) s0 with
        | (_, Raise e) => if is_Exception e then Ok tt else Raise e
        | (s1, Ok _) =>
            match respond _ (Click Sel.ok_button) s1 with
            | (_, Raise e) => if is_Exception e then Ok tt else Raise e
            | (_, Ok _) => Ok tt
            end
        end
    end /\
  root_files (close_annoying_modal w).1 = root_files w /\
  subdirs (close_annoying_modal w).1 = subdirs w /\
  exists t, trace (close_annoying_modal w).1 = trace w ++ t /\
    (count_events raised t <= 1)%nat /\
    forall ev e, ev ∈ t -> raised_exn ev = Some e ->
      if is_Exception e && modal_event ev
      then (close_annoying_modal w).2 = Ok tt /\
           last t = Some (modal_warning e) /\ count_events is_warning t = 1%nat
      else (close_annoying_modal w).2 = Raise e /\
           last t = Some ev /\ count_events is_warning t = 0%nat.
Proof.
  rewrite close_annoying_modal_eq.
  destruct (respond _ BrowserPage (outside w)) as [s0 [u0|e0]];
    [destruct (respond _ (WaitForSelector Sel.modal 2000) s0) as [s1 [u1|e1]];
     [destruct (respond _ (Click Sel.ok_button) s1) as [s2 [u2|e2]];
      [| destruct (is_Exception e2) eqn:Hclass]
     | destruct (is_Exception e1) eqn:Hclass] |];
    simpl;
    (split; [done |]); (split; [done |]); (split; [done |]);
    eexists; rewrite <- ?app_assoc; (split; [reflexivity |]);
    simpl; (split; [lia |]); intros ev e Hin Hev;
    repeat (apply elem_of_cons in Hin as [-> | Hin];
            [simpl in Hev;
             first [discriminate Hev
                   | injection Hev as ->; simpl; rewrite ?andb_false_r, ?andb_true_r;
                     repeat match goal with
                            | H : is_Exception _ = _ |- _ => rewrite H
                            end;
                     done] |]);
    by apply elem_of_nil in Hin.
Qed.

(** C8: when [browser.page()] has returned and the wait for the modal
    raises an instance of [Exception] (the modal did not appear within the
    2000 ms: a timeout error), [close_annoying_modal] does not raise: it
    logs the warning, does not click, and whatever follows it in the run
    is run next, in the world so obtained. *)
Theorem modal_absent_is_recovered (w : World) (s0 s : St) (e : exn) :
  respond _ BrowserPage (outside w) = (s0, Ok tt) ->
  respond _ (WaitForSelector Sel.modal 2000) s0 = (s, Raise e) ->
  is_Exception e = true ->
  let w' := logged (modal_warning e)
              (answered (WaitForSelector Sel.modal 2000) s (Raise e)
                 (answered BrowserPage s0 (Ok tt) w)) in
  close_annoying_modal w = (w', Ok tt) /\
  forall (B : Type) (rest : M B), (close_annoying_modal ;; rest) w = rest w'.
Proof.
  intros Hpage Hwait Hclass w'.
  assert (Hrun : close_annoying_modal w = (w', Ok tt)).
  { rewrite close_annoying_modal_eq, Hpage. simpl. rewrite Hwait. simpl. by rewrite Hclass. }
  split; [exact Hrun |].
  intros B rest. by rewrite (bind_ok _ _ _ _ _ Hrun).
Qed.

(** ** The submission loop *)

Lemma check_order_success_spec (w : World) :
  check_order_success w =
  match respond _ (IsVisible Sel.alert) (outside w) with
  | (s, Ok visible) => (answered (IsVisible Sel.alert) s (Ok visible) w, Ok (negb visible))
  | (s, Raise e) => (answered (IsVisible Sel.alert) s (Raise e) w, Raise e)
  end.
Proof.
  unfold check_order_success. rewrite bind_unfold. unfold ext_call.
  destruct (respond _ (IsVisible Sel.alert) (outside w)) as [s [[]|e]]; reflexivity.
Qed.

(** One pass through the body of the loop, from the answers of the
    library. *)
Lemma submit_loop_step (count : Z) (w : World) :
  (count <= MAX_SUBMISSION_ATTEMPTS)%Z ->
  submit_loop false count w =
  match respond _ (Click Sel.order) (outside w) with
  | (s1, Raise e) => (answered (Click Sel.order) s1 (Raise e) w, Raise e)
  | (s1, Ok u) =>
      let w1 := answered (Click Sel.order) s1 (Ok u) w in
      match respond _ (IsVisible Sel.alert) s1 with
      | (s2, Raise e) => (answered (IsVisible Sel.alert) s2 (Raise e) w1, Raise e)
      | (s2, Ok true) =>
          submit_loop false (count + 1)
            (logged (Warned "Failed to submit order, retrying...")
               (logged (Printed "Failed to submit order, retrying...")
                  (answered (IsVisible Sel.alert) s2 (Ok true) w1)))
      | (s2, Ok false) =>
          submit_loop true (count + 1) (answered (IsVisible Sel.alert) s2 (Ok false) w1)
      end
  end.
Proof.
  intros Hle. rewrite submit_loop_eq.
  assert (Hcond : negb false && (count <=? MAX_SUBMISSION_ATTEMPTS)%Z = true).
  { simpl. by apply Z.leb_le. }
  rewrite Hcond. rewrite bind_unfold. unfold ext_call at 1.
  destruct (respond _ (Click Sel.order) (outside w)) as [s1 [u|e]]; [| reflexivity].
  rewrite bind_unfold, check_order_success_spec. simpl.
  destruct (respond _ (IsVisible Sel.alert) s1) as [s2 [[]|e]]; reflexivity.
Qed.

Lemma submit_loop_done (count : Z) (w : World) :
  submit_loop true count w = (w, Ok tt).
Proof. rewrite submit_loop_eq. reflexivity. Qed.

Lemma submit_loop_bound (count : Z) (w : World) :
  (MAX_SUBMISSION_ATTEMPTS < count)%Z ->
  submit_loop false count w = (w, Ok tt).
Proof.
  intros Hlt. rewrite submit_loop_eq.
  assert (Hcond : negb false && (count <=? MAX_SUBMISSION_ATTEMPTS)%Z = false).
  { simpl. apply Z.leb_gt. exact Hlt. }
  rewrite Hcond. reflexivity.
Qed.

(** The trace of the loop entered with [success = False]: a run of
    attempts, with no more clicks than iterations left and none after a
    success. *)
Lemma submit_loop_trace (n : nat) :
  forall (count : Z) (w : World),
    Z.to_nat (MAX_SUBMISSION_ATTEMPTS + 1 - count) = n ->
    exists t, trace (submit_loop false count w).1 = trace w ++ t /\
      attempts (kind <$> t) = true /\
      (count_events is_submit_click t <= n)%nat /\
      no_click_after_success t = true.
Proof.
  induction n as [|n IH]; intros count w Hn.
  - rewrite submit_loop_bound by (unfold MAX_SUBMISSION_ATTEMPTS in *; lia).
    exists []. simpl. rewrite app_nil_r. done.
  - assert (Hle : (count <= MAX_SUBMISSION_ATTEMPTS)%Z)
      by (unfold MAX_SUBMISSION_ATTEMPTS in *; lia).
    rewrite (submit_loop_step _ _ Hle).
    destruct (respond _ (Click Sel.order) (outside w)) as [s1 [u|e]].
    + simpl. destruct (respond _ (IsVisible Sel.alert) s1) as [s2 [[]|e]].
      * destruct (IH (count + 1)%Z
          (logged (Warned "Failed to submit order, retrying...")
             (logged (Printed "Failed to submit order, retrying...")
                (answered (IsVisible Sel.alert) s2 (Ok true)
                   (answered (Click Sel.order) s1 (Ok u) w)))))
          as (t & Ht & Hshape & Hcount & Hafter);
          [unfold MAX_SUBMISSION_ATTEMPTS in *; lia |].
        eexists. rewrite Ht. simpl. rewrite <- !app_assoc. split; [reflexivity |].
        simpl. repeat split; [exact Hshape | lia | exact Hafter].
      * rewrite submit_loop_done. simpl.
        eexists. rewrite <- !app_assoc. split; [reflexivity |].
        simpl. repeat split; lia.
      * simpl. eexists. rewrite <- !app_assoc. split; [reflexivity |].
        simpl. repeat split; lia.
    + simpl. eexists. split; [reflexivity |]. simpl. repeat split; lia.
Qed.

(** C1: whatever the success checks answer, one call of
    [submit_until_success] clicks the submit button at most
    [MAX_SUBMISSION_ATTEMPTS + 1] times, and among the events it adds none
    is a click on submit after a check that found no visible error
    indicator. *)
Theorem submit_until_success_bounded (w : World) :
  exists t, trace (submit_until_success w).1 = trace w ++ t /\
    (Z.of_nat (count_events is_submit_click t) <= MAX_SUBMISSION_ATTEMPTS + 1)%Z /\
    no_click_after_success t = true.
Proof.
  unfold submit_until_success.
  destruct (submit_loop_trace _ 0%Z w eq_refl) as (t & Ht & _ & Hcount & Hafter).
  exists t. split; [exact Ht |]. split; [| exact Hafter].
  change (Z.to_nat (MAX_SUBMISSION_ATTEMPTS + 1 - 0)) with 6%nat in Hcount.
  unfold MAX_SUBMISSION_ATTEMPTS. lia.
Qed.

(** C7: [check_order_success] looks once at the error indicator and
    returns [True] exactly when it is not visible, [False] exactly when it
    is; and the events of [submit_until_success] are a run of attempts,
    each one a click on submit followed at once by that check. *)
Theorem click_then_check (w : World) :
  check_order_success w =
    match respond _ (IsVisible Sel.alert) (outside w) with
    | (s, Ok visible) => (answered (IsVisible Sel.alert) s (Ok visible) w, Ok (negb visible))
    | (s, Raise e) => (answered (IsVisible Sel.alert) s (Raise e) w, Raise e)
    end /\
  exists t, trace (submit_until_success w).1 = trace w ++ t /\
    attempts (kind <$> t) = true.
Proof.
  split.
  - apply check_order_success_spec.
  - unfold submit_until_success.
    destruct (submit_loop_trace _ 0%Z w eq_refl) as (t & Ht & Hshape & _).
    eauto.
Qed.

(** ** The catalog *)

Lemma parts_dict_of_snoc (table : list model_row) (r : model_row) :
  parts_dict_of (table ++ [r]) = <[Part_number r := Model_name r]> (parts_dict_of table).
Proof. unfold parts_dict_of. by rewrite foldl_app. Qed.

Lemma parts_dict_of_dom (table : list model_row) (k : scalar) :
  is_Some (parts_dict_of table !! k) <-> k ∈ Part_number <$> table.
Proof.
  induction table as [|r table IH] using rev_ind.
  - unfold parts_dict_of. simpl. rewrite lookup_empty. split.
    + by intros [? ?].
    + by intros ?%elem_of_nil.
  - rewrite parts_dict_of_snoc, fmap_app, elem_of_app. simpl.
    rewrite list_elem_of_singleton.
    destruct (decide (Part_number r = k)) as [<-|Hne].
    + rewrite lookup_insert_eq. split; eauto.
    + rewrite lookup_insert_ne by done. rewrite IH. split; [tauto |].
      intros [? | ?]; [done | congruence].
Qed.

Lemma parts_dict_of_last (table : list model_row) (i : nat) (r : model_row) :
  table !! i = Some r ->
  (forall j r', (i < j)%nat -> table !! j = Some r' -> Part_number r' <> Part_number r) ->
  parts_dict_of table !! Part_number r = Some (Model_name r).
Proof.
  revert i r. induction table as [|x table IH] using rev_ind; intros i r Hi Hlater.
  - by rewrite lookup_nil in Hi.
  - rewrite parts_dict_of_snoc.
    destruct (decide (i < length table)%nat) as [Hlt|Hge].
    + rewrite lookup_app_l in Hi by done.
      rewrite lookup_insert_ne.
      * apply (IH i r Hi). intros j r' Hij Hj.
        apply (Hlater j r' Hij). rewrite lookup_app_l; [done |].
        by apply lookup_lt_Some in Hj.
      * apply (Hlater (length table) x Hlt).
        by rewrite list_lookup_middle.
    + assert (i = length table) as ->.
      { apply lookup_lt_Some in Hi. rewrite length_app in Hi. simpl in Hi. lia. }
      rewrite list_lookup_middle in Hi by done. injection Hi as ->.
      by rewrite lookup_insert_eq.
Qed.

(** C6: when the click on the button, the read of the markup of the
    table and its parsing return, [get_model_parts] returns the mapping
    made of the rows of the first table parsed, in their order.  It is a
    mapping with one value per part number; its keys are the part numbers
    of the rows; a part number is mapped to the model name of the last
    row that carries it, so that of two rows with the same part number
    the later one wins. *)
Theorem get_model_parts_later_duplicate_overwrites
    (w : World) (s1 s2 s3 : St) (html : string)
    (table : list model_row) (others : list (list model_row)) :
  respond _ (Click Sel.show_model_info) (outside w) = (s1, Ok tt) ->
  respond _ (InnerHtml Sel.model_info) s1 = (s2, Ok html) ->
  respond _ (ReadHtml ("<table>" +:+ html +:+ "</table>")) s2 = (s3, Ok (table :: others)) ->
  exists d,
    get_model_parts w =
      (answered (ReadHtml ("<table>" +:+ html +:+ "</table>")) s3 (Ok (table :: others))
         (answered (InnerHtml Sel.model_info) s2 (Ok html)
            (answered (Click Sel.show_model_info) s1 (Ok tt) w)),
       Ok d) /\
    d = parts_dict_of table /\
    (forall k, is_Some (d !! k) <-> k ∈ Part_number <$> table) /\
    (forall i r, table !! i = Some r ->
       (forall j r', (i < j)%nat -> table !! j = Some r' -> Part_number r' <> Part_number r) ->
       d !! Part_number r = Some (Model_name r)) /\
    (forall i j r r', (i < j)%nat -> table !! i = Some r -> table !! j = Some r' ->
       Part_number r = Part_number r' ->
       (forall l r'', (j < l)%nat -> table !! l = Some r'' -> Part_number r'' <> Part_number r') ->
       d !! Part_number r = Some (Model_name r')).
Proof.
  intros Hclick Hhtml Hread.
  exists (parts_dict_of table). split.
  { unfold get_model_parts. rewrite bind_unfold. unfold ext_call at 1. rewrite Hclick.
    rewrite bind_unfold. unfold ext_call at 1. simpl. rewrite Hhtml.
    rewrite bind_unfold. unfold ext_call at 1. simpl. rewrite Hread.
    reflexivity. }
  split; [reflexivity |]. split; [apply parts_dict_of_dom |]. split.
  - intros i r. apply parts_dict_of_last.
  - intros i j r r' _ _ Hj -> Hlater. by apply (parts_dict_of_last table j r').
Qed.

(** ** One order *)

Ltac unfold_script :=
  unfold program, order_robots_from_RobotSpareBin, module_init, ensure_dir, get_orders,
    site_opening, open_robot_order_website, go_to_place_order_page,
    close_annoying_modal, get_model_parts, first_table, fill_the_form, add_str,
    preview_order, submit_until_success, click_order_another, store_receipt_as_pdf,
    screenshot_robot, process_order, embed_screenshot_to_receipt.

Ltac solve_respects := repeat first [respects_step | progress unfold_script].

(** From a step [H : f w = (w1, r)], the fact [R w w1], by the structure
    of [f]. *)
Ltac keeps R H :=
  lazymatch type of H with
  | ?f ?w = (?w1, ?r) =>
      let K := fresh "K" in
      assert (K : R w w1);
      [ let Hr := fresh "Hr" in
        assert (Hr : respects R f) by solve_respects;
        specialize (Hr w); rewrite H in Hr; exact Hr
      | ]
  end.

(** The merge: one write into the directory of the merged documents,
    under the name of the order. *)
Lemma embed_ok (on : cell) (sp rp : path) (w w' : World) :
  embed_screenshot_to_receipt on sp rp w = (w', Ok tt) ->
  exists files merged,
    subdirs w !! PDFS_PATH = Some files /\
    subdirs w' = <[PDFS_PATH := <[merged_name on := merged]> files]> (subdirs w) /\
    count_events is_merged_write (trace w') = S (count_events is_merged_write (trace w)).
Proof.
  unfold embed_screenshot_to_receipt. intros H.
  apply bind_ok_inv in H as (w1 & pdf & Hpdf & H).
  apply bind_ok_inv in H as (w2 & png & Hpng & H).
  apply bind_ok_inv in H as (w3 & merged & Hmerge & H).
  assert (w1 = w) as ->.
  { unfold read_file in Hpdf. destruct (subdirs w !! rp.1 ≫= _); congruence. }
  assert (w2 = w) as ->.
  { unfold read_file in Hpng. destruct (subdirs w !! sp.1 ≫= _); congruence. }
  unfold ext_call in Hmerge.
  destruct (respond _ (AddFilesToPdf [pdf; png]) (outside w)) as [s r].
  injection Hmerge as <- ->.
  unfold write_file in H. simpl in H.
  destruct (subdirs w !! PDFS_PATH) as [files|] eqn:Hdir; [| discriminate].
  injection H as <-. exists files, merged. simpl.
  split; [reflexivity |]. split; [reflexivity |].
  rewrite !count_events_snoc. simpl. lia.
Qed.

Lemma process_order_ok (row : order_row) (w w' : World) :
  process_order row w = (w', Ok tt) ->
  exists files merged,
    subdirs w !! PDFS_PATH = Some files /\
    subdirs w' !! PDFS_PATH = Some (<[merged_name (Order_number row) := merged]> files) /\
    count_events is_merged_write (trace w') = S (count_events is_merged_write (trace w)).
Proof.
  unfold process_order. intros H.
  apply bind_ok_inv in H as (w1 & [] & Hclose & H).
  apply bind_ok_inv in H as (w2 & [] & Hfill & H).
  apply bind_ok_inv in H as (w3 & [] & Hpreview & H).
  apply bind_ok_inv in H as (w4 & [] & Hsubmit & H).
  apply bind_ok_inv in H as (w5 & rp & Hstore & H).
  apply bind_ok_inv in H as (w6 & sp & Hshot & H).
  apply bind_ok_inv in H as (w7 & [] & Hembed & Hclick).
  apply embed_ok in Hembed as (files & merged & Hfiles & Hsub & Hcount).
  keeps same_pdfs Hclose. keeps same_pdfs Hfill. keeps same_pdfs Hpreview.
  keeps same_pdfs Hsubmit. keeps same_pdfs Hstore. keeps same_pdfs Hshot.
  keeps same_pdfs Hclick.
  keeps (same_count is_merged_write) Hclose. keeps (same_count is_merged_write) Hfill.
  keeps (same_count is_merged_write) Hpreview. keeps (same_count is_merged_write) Hsubmit.
  keeps (same_count is_merged_write) Hstore. keeps (same_count is_merged_write) Hshot.
  keeps (same_count is_merged_write) Hclick.
  unfold same_pdfs, same_count in *.
  exists files, merged. split; [congruence |]. split.
  - rewrite K5, Hsub. by rewrite lookup_insert_eq.
  - congruence.
Qed.

(** ** The loop over the orders *)

Lemma for_each_orders_ok (rows : list order_row) (w w' : World) :
  for_each rows process_order w = (w', Ok tt) ->
  count_events is_merged_write (trace w') =
    (count_events is_merged_write (trace w) + length rows)%nat /\
  dom (pdfs w') = dom (pdfs w) ∪ list_to_set (merged_names rows) /\
  (forall n, n ∉ merged_names rows -> pdfs w' !! n = pdfs w !! n).
Proof.
  revert w. induction rows as [|row rows IH]; intros w H; simpl in H.
  - injection H as <-. simpl. split; [lia |]. split; [set_solver | done].
  - apply bind_ok_inv in H as (w1 & [] & Hrow & Hrest).
    apply process_order_ok in Hrow as (files & merged & Hfiles & Hfiles1 & Hcount).
    destruct (IH _ Hrest) as (IHcount & IHdom & IHother).
    assert (Hpdfs1 : pdfs w1 = <[merged_name (Order_number row) := merged]> (pdfs w)).
    { unfold pdfs. by rewrite Hfiles1, Hfiles. }
    split; [simpl; lia |]. split.
    + rewrite IHdom, Hpdfs1, dom_insert_L. unfold merged_names. simpl. set_solver.
    + intros n Hn. unfold merged_names in Hn. simpl in Hn.
      apply not_elem_of_cons in Hn as [Hne Hn].
      rewrite (IHother n Hn), Hpdfs1. by rewrite lookup_insert_ne.
Qed.

(** ** Import of the module, and the archive *)

Lemma ext_call_inv {A : Type} (c : call A) (w w' : World) (a : A) :
  ext_call c w = (w', Ok a) -> exists s, w' = answered c s (Ok a) w.
Proof.
  unfold ext_call. destruct (respond A c (outside w)) as [s r].
  intros H. injection H as <- ->. eauto.
Qed.


(** A directory that exists is left alone; one that does not is made,
    empty, when the operating system agrees. *)
Lemma ensure_dir_ok (d : string) (w w' : World) :
  ensure_dir d w = (w', Ok tt) ->
  root_files w' = root_files w /\
  forall d', subdirs w' !! d' =
    if decide (d = d') then Some (default ∅ (subdirs w !! d')) else subdirs w !! d'.
Proof.
  unfold ensure_dir. rewrite bind_unfold. unfold path_exists.
  destruct (subdirs w !! d) as [files|] eqn:E.
  - rewrite bool_decide_true by eauto. simpl. intros H. injection H as <-.
    split; [done |]. intros d'. case_decide; [subst d'; by rewrite E | done].
  - rewrite bool_decide_false by (by intros [? ?]). simpl.
    unfold mkdir. rewrite E. intros H.
    apply bind_ok_inv in H as (w1 & [] & Hcall & Hmake).
    apply ext_call_inv in Hcall as [s ->]. injection Hmake as <-. simpl.
    split; [done |]. intros d'. case_decide.
    + subst d'. by rewrite lookup_insert_eq, E.
    + by rewrite lookup_insert_ne.
Qed.

(** After an import that returned, the three directories exist with the
    files they had, and no other directory has changed. *)
Lemma module_init_ok (w w0 : World) :
  module_init w = (w0, Ok tt) ->
  root_files w0 = root_files w /\
  forall d, subdirs w0 !! d =
    if bool_decide (d ∈ [RECEIPTS_PATH; IMAGES_PATH; PDFS_PATH])
    then Some (default ∅ (subdirs w !! d))
    else subdirs w !! d.
Proof.
  unfold module_init. intros H.
  apply bind_ok_inv in H as (w1 & [] & H1 & H).
  apply bind_ok_inv in H as (w2 & [] & H2 & H3).
  apply ensure_dir_ok in H1 as (Hr1 & Hd1).
  apply ensure_dir_ok in H2 as (Hr2 & Hd2).
  apply ensure_dir_ok in H3 as (Hr3 & Hd3).
  split; [congruence |].
  intros d. rewrite Hd3, Hd2, Hd1.
  repeat case_decide; subst; simpl; try done;
    repeat case_bool_decide; try done;
    repeat match goal with
           | H : _ ∈ _ :: _ |- _ => apply elem_of_cons in H as [H|H]
           | H : _ ∈ [] |- _ => by apply elem_of_nil in H
           | H : _ ∉ _ |- _ => exfalso; apply H; set_solver
           end; try done.
  all: try by destruct (subdirs w !! _).
Qed.

Lemma archive_receipts_ok (w w' : World) :
  archive_receipts w = (w', Ok tt) ->
  archive w' = Some (pdfs w) /\
  subdirs w' = subdirs w /\
  count_events is_merged_write (trace w') = count_events is_merged_write (trace w).
Proof.
  unfold archive_receipts, archive, pdfs. intros H.
  apply bind_ok_inv in H as (w1 & outcome & Hcall & H).
  apply ext_call_inv in Hcall as [s ->].
  destruct outcome as [|remains e].
  - rewrite bind_unfold in H. simpl in H. injection H as <-. simpl.
    rewrite lookup_insert_eq.
    split; [done |]. split; [done |].
    rewrite !count_events_snoc. simpl. lia.
  - apply bind_ok_inv in H as (w2 & [] & _ & H). discriminate H.
Qed.

(** ** The whole run *)

Lemma map_head_names (d : gmap scalar cell) (orders_df : list order_row) :
  merged_names (map_head d orders_df) = merged_names orders_df.
Proof.
  unfold merged_names, map_head. rewrite <- list_fmap_compose. reflexivity.
Qed.

Lemma map_head_order_numbers (d : gmap scalar cell) (orders_df : list order_row)
    (row' : order_row) :
  row' ∈ map_head d orders_df ->
  exists row, row ∈ orders_df /\ Order_number row' = Order_number row.
Proof.
  unfold map_head. intros (row & -> & Hrow)%list_elem_of_fmap. eauto.
Qed.

Lemma map_head_length (d : gmap scalar cell) (orders_df : list order_row) :
  length (map_head d orders_df) = length orders_df.
Proof. unfold map_head. by rewrite length_fmap. Qed.

(** A run that returns normally went through the import, the download,
    the opening of the site, the catalog, the loop and the archive. *)
Lemma program_ok (w w' : World) :
  program w = (w', Ok tt) ->
  exists w0 w1 w2 w3 w4 orders_df d,
    module_init w = (w0, Ok tt) /\
    get_orders w0 = (w1, Ok orders_df) /\
    site_opening w1 = (w2, Ok tt) /\
    get_model_parts w2 = (w3, Ok d) /\
    for_each (map_head d orders_df) process_order w3 = (w4, Ok tt) /\
    archive_receipts w4 = (w', Ok tt).
Proof.
  unfold program, order_robots_from_RobotSpareBin. intros H.
  apply bind_ok_inv in H as (w0 & [] & Hinit & H).
  apply bind_ok_inv in H as (w1 & orders_df & Horders & H).
  apply bind_ok_inv in H as (w1a & [] & Hopen & H).
  apply bind_ok_inv in H as (w1b & [] & Hgoto & H).
  apply bind_ok_inv in H as (w2 & [] & Hclose & H).
  apply bind_ok_inv in H as (w3 & d & Hparts & H).
  apply bind_ok_inv in H as (w4 & [] & Hloop & Harchive).
  exists w0, w1, w2, w3, w4, orders_df, d.
  repeat split; try assumption.
  unfold site_opening.
  rewrite (bind_ok _ _ _ _ _ Hopen), (bind_ok _ _ _ _ _ Hgoto). exact Hclose.
Qed.

Lemma distinct_names_bound (names : list string) :
  (size (list_to_set names : gset string) <= length names)%nat.
Proof.
  induction names as [|n names IH].
  - rewrite list_to_set_nil, size_empty. simpl. lia.
  - rewrite list_to_set_cons. simpl length.
    destruct (decide (n ∈ (list_to_set names : gset string))) as [Hin | Hout].
    + replace ({[n]} ∪ list_to_set names) with (list_to_set names : gset string)
        by set_solver.
      lia.
    + rewrite size_union by set_solver. rewrite size_singleton. lia.
Qed.

Lemma distinct_names_exact (names : list string) :
  size (list_to_set names : gset string) = length names <-> NoDup names.
Proof.
  split; [| by apply size_list_to_set].
  induction names as [|n names IH]; [intros _; constructor |].
  rewrite list_to_set_cons. simpl length.
  pose proof (distinct_names_bound names) as Hbound.
  destruct (decide (n ∈ (list_to_set names : gset string))) as [Hin | Hout].
  - replace ({[n]} ∪ list_to_set names) with (list_to_set names : gset string)
      by set_solver.
    lia.
  - rewrite size_union by set_solver. rewrite size_singleton. intros Hsize.
    constructor; [set_solver | apply IH; lia].
Qed.

(** What a normal run did to the merged documents. *)
Lemma program_merged (w w' : World) :
  program w = (w', Ok tt) ->
  exists w0 w1 orders_df,
    module_init w = (w0, Ok tt) /\
    get_orders w0 = (w1, Ok orders_df) /\
    count_events is_merged_write (trace w') =
      (count_events is_merged_write (trace w) + length orders_df)%nat /\
    archive w' = Some (pdfs w') /\
    dom (pdfs w') = dom (pdfs w) ∪ list_to_set (merged_names orders_df) /\
    (forall n, n ∉ merged_names orders_df -> pdfs w' !! n = pdfs w !! n).
Proof.
  intros H.
  apply program_ok in H
    as (w0 & w1 & w2 & w3 & w4 & orders_df & d & Hinit & Horders & Hsite & Hparts & Hloop & Harch).
  exists w0, w1, orders_df. split; [exact Hinit |]. split; [exact Horders |].
  pose proof (module_init_ok _ _ Hinit) as (_ & Hdirs0).
  keeps (same_count is_merged_write) Hinit.
  assert (Hpdfs0 : pdfs w0 = pdfs w).
  { unfold pdfs. rewrite (Hdirs0 PDFS_PATH). simpl. by destruct (subdirs w !! PDFS_PATH). }
  keeps same_pdfs Horders. keeps same_pdfs Hsite. keeps same_pdfs Hparts.
  keeps (same_count is_merged_write) Horders. keeps (same_count is_merged_write) Hsite.
  keeps (same_count is_merged_write) Hparts.
  apply for_each_orders_ok in Hloop as (Hcount & Hdom & Hother).
  apply archive_receipts_ok in Harch as (Hzip & Hsub & Hcount').
  rewrite map_head_length in Hcount. rewrite map_head_names in Hdom, Hother.
  unfold same_pdfs, same_count in *.
  assert (Hpdfs3 : pdfs w3 = pdfs w).
  { rewrite <- Hpdfs0. unfold pdfs. congruence. }
  assert (Hpdfs' : pdfs w' = pdfs w4) by (unfold pdfs; by rewrite Hsub).
  rewrite Hpdfs'. rewrite Hpdfs3 in Hdom, Hother.
  split; [congruence |]. split; [exact Hzip |]. split; [exact Hdom | exact Hother].
Qed.

(** C3, as the code has it: in a run that returns normally the merged
    document is written once for every row of the table the orders were
    loaded into, and at the end the merged document of every row is in the
    directory; the files the run adds to the directory are those of its
    rows.  Rows whose order numbers give the same file name share one
    document, so the run leaves at most as many merged documents as the
    table has rows: exactly as many when the names are pairwise
    different, and fewer when they are not. *)
Theorem one_merged_write_per_row (w w' : World) :
  program w = (w', Ok tt) ->
  exists w0 w1 orders_df,
    module_init w = (w0, Ok tt) /\
    get_orders w0 = (w1, Ok orders_df) /\
    count_events is_merged_write (trace w') =
      (count_events is_merged_write (trace w) + length orders_df)%nat /\
    (forall row, row ∈ orders_df -> is_Some (pdfs w' !! merged_name (Order_number row))) /\
    dom (pdfs w') = dom (pdfs w) ∪ list_to_set (merged_names orders_df) /\
    (size (list_to_set (merged_names orders_df) : gset string) <= length orders_df)%nat /\
    (size (list_to_set (merged_names orders_df) : gset string) = length orders_df <->
     NoDup (merged_names orders_df)).
Proof.
  intros H.
  apply program_merged in H as (w0 & w1 & orders_df & Hinit & Horders & Hcount & _ & Hdom & _).
  exists w0, w1, orders_df.
  split; [exact Hinit |]. split; [exact Horders |]. split; [exact Hcount |].
  split; [| split; [exact Hdom | split]].
  - intros row Hrow. apply elem_of_dom. rewrite Hdom.
    apply elem_of_union_r, elem_of_list_to_set.
    unfold merged_names. apply list_elem_of_fmap. eauto.
  - assert (Hlen : length (merged_names orders_df) = length orders_df)
      by (unfold merged_names; by rewrite length_fmap).
    rewrite <- Hlen. apply distinct_names_bound.
  - assert (Hlen : length (merged_names orders_df) = length orders_df)
      by (unfold merged_names; by rewrite length_fmap).
    rewrite <- Hlen. apply distinct_names_exact.
Qed.

(** C4, as the code has it: after a run that returns normally the archive
    holds exactly the files of the directory of the merged documents.  Its
    entry names are the names that were in the directory before the run
    together with [receipt_with_screenshot_<order number>.pdf] for every
    row of the orders table.  When the directory was empty (or absent)
    before the run and these names are pairwise distinct, the archive has
    exactly one entry per merged document written by the run. *)
Theorem archive_matches_merged_directory (w w' : World) :
  program w = (w', Ok tt) ->
  exists w0 w1 orders_df entries,
    module_init w = (w0, Ok tt) /\
    get_orders w0 = (w1, Ok orders_df) /\
    archive w' = Some entries /\
    entries = pdfs w' /\
    dom entries = dom (pdfs w) ∪ list_to_set (merged_names orders_df) /\
    (pdfs w = ∅ -> NoDup (merged_names orders_df) ->
       size entries = length orders_df /\
       (count_events is_merged_write (trace w') =
          count_events is_merged_write (trace w) + size entries)%nat).
Proof.
  intros H.
  apply program_merged in H
    as (w0 & w1 & orders_df & Hinit & Horders & Hcount & Hzip & Hdom & _).
  exists w0, w1, orders_df, (pdfs w').
  repeat split; try assumption.
  - rewrite <- size_dom, Hdom, H, dom_empty_L, (left_id_L ∅ (∪)).
    rewrite size_list_to_set by done. unfold merged_names. by rewrite length_fmap.
  - rewrite Hcount. f_equal.
    rewrite <- size_dom, Hdom, H, dom_empty_L, (left_id_L ∅ (∪)).
    rewrite size_list_to_set by done. unfold merged_names. by rewrite length_fmap.
Qed.

(** ** What a merged document holds *)

(** The capture that returns normally: the receipt is what [html_to_pdf]
    made of the markup of the receipt, the screenshot is what the page
    gave, the merged document is what [add_files_to_pdf] made of these
    two, in this order, and each is written under the name of the order. *)
Lemma capture_ok (row : order_row) (w w' : World) :
  capture_and_reset row w = (w', Ok tt) ->
  exists html pdf png merged r0 i0 p0,
    subdirs w !! RECEIPTS_PATH = Some r0 /\
    subdirs w !! IMAGES_PATH = Some i0 /\
    subdirs w !! PDFS_PATH = Some p0 /\
    trace w' = trace w ++ capture_events row html pdf png merged /\
    subdirs w' =
      <[PDFS_PATH := <[merged_name (Order_number row) := merged]> p0]>
        (<[IMAGES_PATH := <[screenshot_name (Order_number row) := png]> i0]>
           (<[RECEIPTS_PATH := <[receipt_name (Order_number row) := pdf]> r0]> (subdirs w))) /\
    root_files w' = root_files w.
Proof.
  unfold capture_and_reset. intros H.
  apply bind_ok_inv in H as (w1 & rp & Hstore & H).
  apply bind_ok_inv in H as (w2 & sp & Hshot & H).
  apply bind_ok_inv in H as (w3 & [] & Hembed & Hclick).
  unfold store_receipt_as_pdf in Hstore.
  apply bind_ok_inv in Hstore as (wa & html & Hhtml & Hstore).
  apply bind_ok_inv in Hstore as (wb & pdf & Hpdf & Hstore).
  apply bind_ok_inv in Hstore as (wc & [] & Hwrite1 & Hret1).
  apply ext_call_inv in Hhtml as [sa ->]. apply ext_call_inv in Hpdf as [sb ->].
  injection Hret1 as <- <-.
  unfold write_file in Hwrite1. simpl in Hwrite1.
  destruct (subdirs w !! RECEIPTS_PATH) as [r0|] eqn:Hr0; [| discriminate Hwrite1].
  injection Hwrite1 as <-.
  unfold screenshot_robot in Hshot.
  apply bind_ok_inv in Hshot as (wd & png & Hpng & Hshot).
  apply bind_ok_inv in Hshot as (we & [] & Hwrite2 & Hret2).
  apply ext_call_inv in Hpng as [sd ->]. injection Hret2 as <- <-.
  unfold write_file in Hwrite2. simpl in Hwrite2.
  rewrite lookup_insert_ne in Hwrite2 by discriminate.
  destruct (subdirs w !! IMAGES_PATH) as [i0|] eqn:Hi0; [| discriminate Hwrite2].
  injection Hwrite2 as <-.
  unfold embed_screenshot_to_receipt in Hembed.
  apply bind_ok_inv in Hembed as (wf & pdf' & Hread1 & Hembed).
  apply bind_ok_inv in Hembed as (wg & png' & Hread2 & Hembed).
  apply bind_ok_inv in Hembed as (wh & merged & Hmerge & Hwrite3).
  unfold read_file in Hread1. simpl in Hread1.
  rewrite lookup_insert_ne in Hread1 by discriminate.
  rewrite lookup_insert_eq in Hread1. simpl in Hread1.
  rewrite lookup_insert_eq in Hread1. injection Hread1 as <- <-.
  unfold read_file in Hread2. simpl in Hread2.
  rewrite lookup_insert_eq in Hread2. simpl in Hread2.
  rewrite lookup_insert_eq in Hread2. injection Hread2 as <- <-.
  apply ext_call_inv in Hmerge as [sh ->].
  unfold write_file in Hwrite3. simpl in Hwrite3.
  rewrite !lookup_insert_ne in Hwrite3 by discriminate.
  destruct (subdirs w !! PDFS_PATH) as [p0|] eqn:Hp0; [| discriminate Hwrite3].
  injection Hwrite3 as <-.
  unfold click_order_another in Hclick. apply ext_call_inv in Hclick as [si ->].
  exists html, pdf, png, merged, r0, i0, p0. unfold capture_events. simpl.
  repeat split. by rewrite <- !app_assoc.
Qed.

(** An order processed normally came to its capture with the merged
    documents as they were. *)
Lemma process_order_capture (row : order_row) (w w' : World) :
  process_order row w = (w', Ok tt) ->
  exists w4, extends_trace w w4 /\ same_pdfs w w4 /\
    capture_and_reset row w4 = (w', Ok tt).
Proof.
  unfold process_order. intros H.
  apply bind_ok_inv in H as (w1 & [] & Hclose & H).
  apply bind_ok_inv in H as (w2 & [] & Hfill & H).
  apply bind_ok_inv in H as (w3 & [] & Hpreview & H).
  apply bind_ok_inv in H as (w4 & [] & Hsubmit & H).
  exists w4.
  keeps extends_trace Hclose. keeps extends_trace Hfill. keeps extends_trace Hpreview.
  keeps extends_trace Hsubmit.
  keeps same_pdfs Hclose. keeps same_pdfs Hfill. keeps same_pdfs Hpreview.
  keeps same_pdfs Hsubmit.
  split; [by do 3 (etrans; [eassumption |]) |].
  split; [by do 3 (etrans; [eassumption |]) |].
  exact H.
Qed.

(** The merged document a normal loop leaves under each name of its rows
    is the one of a capture of the loop, made for a row of that name: the
    document that [add_files_to_pdf] returned in it. *)
Lemma for_each_orders_merged (rows : list order_row) (w w' : World) :
  for_each rows process_order w = (w', Ok tt) ->
  exists t, trace w' = trace w ++ t /\
    forall n, n ∈ merged_names rows ->
      exists row html pdf png merged t1 t2,
        row ∈ rows /\ merged_name (Order_number row) = n /\
        t = t1 ++ capture_events row html pdf png merged ++ t2 /\
        pdfs w' !! n = Some merged.
Proof.
  revert w. induction rows as [|row rows IH]; intros w H.
  - simpl in H. injection H as <-. exists []. rewrite app_nil_r. split; [done |].
    intros n Hn. by apply elem_of_nil in Hn.
  - simpl in H. apply bind_ok_inv in H as (w1 & [] & Hrow & Hrest).
    pose proof (for_each_orders_ok _ _ _ Hrest) as (_ & _ & Hother).
    destruct (IH _ Hrest) as (t2 & Ht2 & IHn).
    apply process_order_capture in Hrow as (w4 & [t0 Ht0] & Hpdfs4 & Hcapture).
    apply capture_ok in Hcapture
      as (html & pdf & png & merged & r0 & i0 & p0 & _ & _ & Hp0 & Ht1 & Hsub1 & _).
    eexists. split.
    { rewrite Ht2, Ht1, Ht0. rewrite <- !app_assoc. reflexivity. }
    intros n Hn.
    destruct (decide (n ∈ merged_names rows)) as [Hin | Hout].
    + destruct (IHn n Hin)
        as (row' & html' & pdf' & png' & merged' & ta & tb & Hrow' & Hname & -> & Hfile).
      exists row', html', pdf', png', merged',
        (t0 ++ capture_events row html pdf png merged ++ ta), tb.
      split; [by apply list_elem_of_further |]. split; [exact Hname |].
      split; [by rewrite <- !app_assoc | exact Hfile].
    + unfold merged_names in Hn. simpl in Hn.
      apply elem_of_cons in Hn as [-> | Hn]; [| done].
      exists row, html, pdf, png, merged, t0, t2.
      split; [apply list_elem_of_here |]. split; [reflexivity |].
      split; [reflexivity |].
      rewrite (Hother _ Hout). unfold pdfs. rewrite Hsub1.
      rewrite lookup_insert_eq. simpl. by rewrite lookup_insert_eq.
Qed.

Lemma program_merged_content (w w' : World) :
  program w = (w', Ok tt) ->
  exists w0 w1 orders_df t,
    module_init w = (w0, Ok tt) /\
    get_orders w0 = (w1, Ok orders_df) /\
    trace w' = trace w ++ t /\
    forall n, n ∈ merged_names orders_df ->
      exists row html pdf png merged t1 t2,
        row ∈ orders_df /\ merged_name (Order_number row) = n /\
        t = t1 ++ capture_events row html pdf png merged ++ t2 /\
        pdfs w' !! n = Some merged.
Proof.
  intros H.
  apply program_ok in H
    as (w0 & w1 & w2 & w3 & w4 & orders_df & d & Hinit & Horders & Hsite & Hparts & Hloop & Harch).
  keeps extends_trace Hinit. keeps extends_trace Horders. keeps extends_trace Hsite.
  keeps extends_trace Hparts. keeps extends_trace Harch.
  assert (Hpre : extends_trace w w3) by (do 3 (etrans; [eassumption |]); assumption).
  destruct Hpre as [ta Hta]. destruct K3 as [tc Htc].
  apply for_each_orders_merged in Hloop as (tb & Htb & Hnames).
  rewrite map_head_names in Hnames.
  pose proof (archive_receipts_ok _ _ Harch) as (_ & Hsub & _).
  exists w0, w1, orders_df, (ta ++ tb ++ tc).
  split; [exact Hinit |]. split; [exact Horders |]. split.
  { rewrite Htc, Htb, Hta. by rewrite <- !app_assoc. }
  intros n Hn.
  destruct (Hnames n Hn)
    as (row' & html & pdf & png & merged & t1 & t2 & Hrow' & Hname & -> & Hfile).
  apply map_head_order_numbers in Hrow' as (row & Hrow & Hnumber).
  exists row, html, pdf, png, merged, (ta ++ t1), (t2 ++ tc).
  split; [exact Hrow |]. split; [by rewrite <- Hnumber |].
  split; [| unfold pdfs in *; by rewrite Hsub].
  unfold capture_events. rewrite Hnumber. by rewrite <- !app_assoc.
Qed.

Lemma program_keeps_files : respects keeps_files program.
Proof. solve_respects. Qed.

(** C9, as the code has it: the import creates a directory only when it
    does not exist and leaves an existing one with its files; during the
    run no directory and no file name disappears; the archive holds every
    file of the directory of the merged documents.  Hence a file that was
    in that directory before the run is in the archive with its content,
    next to the merged documents of the run, unless its name is the name
    of a merged document of one of the orders of the run: under such a
    name the archive holds a document that the run itself merged, from a
    receipt and a screenshot it made. *)
Theorem leftover_files_are_archived (w w' : World) :
  program w = (w', Ok tt) ->
  keeps_files w w' /\
  exists w0 w1 orders_df entries t,
    module_init w = (w0, Ok tt) /\
    get_orders w0 = (w1, Ok orders_df) /\
    (forall d files, subdirs w !! d = Some files -> subdirs w0 !! d = Some files) /\
    archive w' = Some entries /\
    entries = pdfs w' /\
    (forall n c, pdfs w !! n = Some c -> n ∉ merged_names orders_df -> entries !! n = Some c) /\
    trace w' = trace w ++ t /\
    (forall n, n ∈ merged_names orders_df ->
       exists row html pdf png merged t1 t2,
         row ∈ orders_df /\ merged_name (Order_number row) = n /\
         t = t1 ++ capture_events row html pdf png merged ++ t2 /\
         entries !! n = Some merged).
Proof.
  intros H. split.
  { pose proof (program_keeps_files w) as K. by rewrite H in K. }
  pose proof (program_merged_content _ _ H)
    as (w0' & w1' & orders_df' & t & Hinit' & Horders' & Ht & Hnames).
  apply program_merged in H
    as (w0 & w1 & orders_df & Hinit & Horders & _ & Hzip & Hdom & Hother).
  rewrite Hinit in Hinit'. injection Hinit' as <-.
  rewrite Horders in Horders'. injection Horders' as <- <-.
  exists w0, w1, orders_df, (pdfs w'), t.
  split; [exact Hinit |]. split; [exact Horders |]. split.
  { intros d files Hd.
    pose proof (module_init_ok _ _ Hinit) as (_ & Hdirs).
    rewrite Hdirs, Hd. simpl. by case_bool_decide. }
  split; [exact Hzip |]. split; [reflexivity |]. split.
  { intros n c Hn Hfresh. by rewrite Hother. }
  split; [exact Ht | exact Hnames].
Qed.

(** ** The substitution of the heads *)

Lemma map_head_lookup (d : gmap scalar cell) (orders_df : list order_row) (i : nat) :
  map_head d orders_df !! i =
  (fun r => OrderRow (Order_number r) (series_map d (Head r)) (Body r) (Legs r) (Address r))
    <$> orders_df !! i.
Proof. unfold map_head. apply list_lookup_fmap. Qed.

(** C5: once the orders are loaded, the site opened and the catalog read,
    the task goes on with the loop over the substituted table, and no form
    has been filled until then.  The substituted table has the rows of
    the loaded one, in order; in each row the head is the model name the
    catalog holds for the part code, the missing value when the catalog
    has no such code, and the other four columns are unchanged. *)
Theorem head_substituted_before_filling
    (w w1 w2 w3 : World) (orders_df : list order_row) (d : gmap scalar cell) :
  get_orders w = (w1, Ok orders_df) ->
  site_opening w1 = (w2, Ok tt) ->
  get_model_parts w2 = (w3, Ok d) ->
  order_robots_from_RobotSpareBin w =
    (for_each (map_head d orders_df) process_order ;; archive_receipts) w3 /\
  count_events is_form_fill (trace w3) = count_events is_form_fill (trace w) /\
  length (map_head d orders_df) = length orders_df /\
  forall i row, orders_df !! i = Some row ->
    exists row', map_head d orders_df !! i = Some row' /\
      Head row' = match Head row with
                  | Some code => match d !! code with Some name => name | None => NaN end
                  | None => NaN
                  end /\
      Order_number row' = Order_number row /\ Body row' = Body row /\
      Legs row' = Legs row /\ Address row' = Address row.
Proof.
  intros Horders Hsite Hparts.
  split; [| split; [| split]].
  - unfold order_robots_from_RobotSpareBin.
    rewrite (bind_ok _ _ _ _ _ Horders).
    unfold site_opening in Hsite.
    apply bind_ok_inv in Hsite as (w1a & [] & Hopen & Hsite).
    apply bind_ok_inv in Hsite as (w1b & [] & Hgoto & Hclose).
    rewrite (bind_ok _ _ _ _ _ Hopen), (bind_ok _ _ _ _ _ Hgoto),
      (bind_ok _ _ _ _ _ Hclose), (bind_ok _ _ _ _ _ Hparts).
    reflexivity.
  - keeps (same_count is_form_fill) Horders.
    keeps (same_count is_form_fill) Hsite.
    keeps (same_count is_form_fill) Hparts.
    unfold same_count in *. congruence.
  - apply map_head_length.
  - intros i row Hi. rewrite map_head_lookup, Hi. simpl.
    eexists. split; [reflexivity |]. simpl. repeat split.
Qed.

(** ** A submission that never succeeds *)

(** The loop entered with [n] iterations left adds at most [n] failed
    checks.  When it adds that many, every iteration was used: a click,
    a check that found the error indicator, a printed line and a warning
    each time; the loop then returns normally, exhausted, with the files
    as they were. *)
Lemma submit_loop_exhausted (n : nat) :
  forall (count : Z) (w : World),
    Z.to_nat (MAX_SUBMISSION_ATTEMPTS + 1 - count) = n ->
    (count_events is_failed_check (trace (submit_loop false count w).1) <=
       count_events is_failed_check (trace w) + n)%nat /\
    (count_events is_failed_check (trace (submit_loop false count w).1) =
       (count_events is_failed_check (trace w) + n)%nat ->
     exists w', submit_loop false count w = (w', Ok tt) /\
       count_events is_submit_click (trace w') = (count_events is_submit_click (trace w) + n)%nat /\
       count_events is_success_check (trace w') = count_events is_success_check (trace w) /\
       count_events is_warning (trace w') = (count_events is_warning (trace w) + n)%nat /\
       subdirs w' = subdirs w /\ root_files w' = root_files w).
Proof.
  induction n as [|n IH]; intros count w Hn.
  - rewrite submit_loop_bound by (unfold MAX_SUBMISSION_ATTEMPTS in *; lia).
    simpl. split; [lia |]. intros _. exists w. repeat split; lia.
  - assert (Hle : (count <= MAX_SUBMISSION_ATTEMPTS)%Z)
      by (unfold MAX_SUBMISSION_ATTEMPTS in *; lia).
    rewrite (submit_loop_step _ _ Hle).
    destruct (respond _ (Click Sel.order) (outside w)) as [s1 [u|e]].
    + simpl. destruct (respond _ (IsVisible Sel.alert) s1) as [s2 [[]|e]].
      * match goal with |- context [submit_loop false _ ?w1] =>
          destruct (IH (count + 1)%Z w1) as (Hbound & Hex);
            [unfold MAX_SUBMISSION_ATTEMPTS in *; lia |]
        end.
        simpl in Hbound, Hex.
        rewrite !(count_events_snoc is_failed_check) in Hbound, Hex.
        rewrite !(count_events_snoc is_submit_click), !(count_events_snoc is_success_check),
          !(count_events_snoc is_warning) in Hex.
        simpl in Hbound, Hex.
        split; [lia |]. intros Heq.
        destruct Hex as (w' & Hrun & Hc & Hs & Hw & Hsub & Hroot); [lia |].
        exists w'. split; [exact Hrun |]. repeat split; first [lia | assumption].
      * rewrite submit_loop_done. simpl.
        rewrite !(count_events_snoc is_failed_check). simpl.
        split; [lia |]. intros Heq. lia.
      * simpl. rewrite !(count_events_snoc is_failed_check). simpl.
        split; [lia |]. intros Heq. lia.
    + simpl. rewrite !(count_events_snoc is_failed_check). simpl.
      split; [lia |]. intros Heq. lia.
Qed.

(** C2, as the code has it.  Take an order for which the modal, the form
    and the preview went through, and let every one of the
    [MAX_SUBMISSION_ATTEMPTS + 1] checks of its submission find the error
    indicator.  Then [submit_until_success] returns normally after that
    many clicks and warnings, no exception and no flag telling the
    exhaustion, and [process_order] goes on with the capture as after a
    success.  Whether the run goes on is decided by the capture: what it
    raises, the loop over the orders raises, and the next row is not
    started; when it returns, the receipt is what [html_to_pdf] made of
    the markup of the receipt, the screenshot is what the page gave, the
    merged document is what [add_files_to_pdf] made of the two, each is
    written under the name of the order, and the loop goes on with the
    next row. *)
Theorem exhaustion_is_not_escalated
    (row : order_row) (rest : list order_row) (w w1 w2 w3 : World) :
  close_annoying_modal w = (w1, Ok tt) ->
  fill_the_form row w1 = (w2, Ok tt) ->
  preview_order w2 = (w3, Ok tt) ->
  Z.of_nat (count_events is_failed_check (trace (submit_until_success w3).1)) =
    (Z.of_nat (count_events is_failed_check (trace w3)) + (MAX_SUBMISSION_ATTEMPTS + 1))%Z ->
  exists w4,
    submit_until_success w3 = (w4, Ok tt) /\
    Z.of_nat (count_events is_submit_click (trace w4)) =
      (Z.of_nat (count_events is_submit_click (trace w3)) + (MAX_SUBMISSION_ATTEMPTS + 1))%Z /\
    Z.of_nat (count_events is_warning (trace w4)) =
      (Z.of_nat (count_events is_warning (trace w3)) + (MAX_SUBMISSION_ATTEMPTS + 1))%Z /\
    count_events is_success_check (trace w4) = count_events is_success_check (trace w3) /\
    subdirs w4 = subdirs w3 /\
    process_order row w = capture_and_reset row w4 /\
    for_each (row :: rest) process_order w =
      match capture_and_reset row w4 with
      | (w', Ok _) => for_each rest process_order w'
      | (w', Raise e) => (w', Raise e)
      end /\
    forall w', capture_and_reset row w4 = (w', Ok tt) ->
      exists html pdf png merged r0 i0 p0,
        subdirs w4 !! RECEIPTS_PATH = Some r0 /\
        subdirs w4 !! IMAGES_PATH = Some i0 /\
        subdirs w4 !! PDFS_PATH = Some p0 /\
        trace w' = trace w4 ++ capture_events row html pdf png merged /\
        subdirs w' =
          <[PDFS_PATH := <[merged_name (Order_number row) := merged]> p0]>
            (<[IMAGES_PATH := <[screenshot_name (Order_number row) := png]> i0]>
               (<[RECEIPTS_PATH := <[receipt_name (Order_number row) := pdf]> r0]>
                  (subdirs w4))) /\
        root_files w' = root_files w4.
Proof.
  intros Hclose Hfill Hpreview Hexh.
  unfold submit_until_success in Hexh.
  destruct (submit_loop_exhausted 6 0%Z w3 eq_refl) as (_ & Hex).
  destruct Hex as (w4 & Hsubmit & Hc & Hs & Hw & Hsub & _).
  { unfold MAX_SUBMISSION_ATTEMPTS in Hexh. lia. }
  change (submit_loop false 0) with submit_until_success in Hsubmit.
  assert (Hrun : process_order row w = capture_and_reset row w4).
  { unfold process_order.
    by rewrite (bind_ok _ _ _ _ _ Hclose), (bind_ok _ _ _ _ _ Hfill),
      (bind_ok _ _ _ _ _ Hpreview), (bind_ok _ _ _ _ _ Hsubmit). }
  exists w4. unfold MAX_SUBMISSION_ATTEMPTS.
  split; [exact Hsubmit |]. split; [lia |]. split; [lia |]. split; [exact Hs |].
  split; [exact Hsub |]. split; [exact Hrun |]. split.
  - simpl. rewrite bind_unfold, Hrun.
    by destruct (capture_and_reset row w4) as [w' [[]|e]].
  - intros w' Hcapture. by apply capture_ok.
Qed.

(** * Beyond the claims *)

(** ** Which exceptions are swallowed *)

#[local] Instance same_zip_preorder : PreOrder same_zip.
Proof.
  split.
  - intros w. reflexivity.
  - intros w1 w2 w3 H12 H23. unfold same_zip in *. congruence.
Qed.

Lemma strict_ret {A : Type} (a : A) : strict (ret a).
Proof. intros w. reflexivity. Qed.

Lemma strict_raise {A : Type} (e : exn) : strict (@raise A e).
Proof. intros w. simpl. lia. Qed.

Lemma strict_bind {A B : Type} (m : M A) (k : A -> M B) :
  strict m -> (forall a, strict (k a)) -> strict (m ≫= k).
Proof.
  intros Hm Hk w. rewrite bind_unfold.
  specialize (Hm w). destruct (m w) as [w1 [a|e]]; simpl in *.
  - specialize (Hk a w1). destruct (k a w1) as [w2 [b|e]]; simpl in *; lia.
  - exact Hm.
Qed.

Lemma strict_of_respects {A : Type} (m : M A) :
  respects (same_count uncaught) m -> strict m.
Proof.
  intros Hm w. specialize (Hm w). unfold same_count in Hm.
  destruct ((m w).2); lia.
Qed.

Lemma strict_ext_call {A : Type} (c : call A) : strict (ext_call c).
Proof.
  intros w. unfold ext_call.
  destruct (respond A c (outside w)) as [s [a|e]]; simpl; rewrite count_events_snoc.
  - simpl. lia.
  - destruct (uncaught _); lia.
Qed.

Lemma strict_for_each {A : Type} (xs : list A) (body : A -> M unit) :
  (forall x, strict (body x)) -> strict (for_each xs body).
Proof.
  intros Hb. induction xs as [|x xs IH]; simpl.
  - apply strict_ret.
  - apply strict_bind; [apply Hb | intros _; exact IH].
Qed.

(** The [try] of [close_annoying_modal] adds no exception to those
    counted: the two calls inside it are the modal's. *)
Lemma modal_try_uncaught :
  respects (same_count uncaught)
    (try_except (ext_call (WaitForSelector Sel.modal 2000) ;; ext_call (Click Sel.ok_button))
       (fun e => logger_warning ("Modal did not appear: " +:+ exn_msg e))).
Proof.
  assert (Hleaf : forall (A : Type) (c : call A), modal_call c = true ->
            respects (same_count uncaught) (ext_call c)).
  { intros A c Hc. apply respects_ext_call; first [exact _ | idtac]. intros w s r.
    unfold same_count, answered. simpl. rewrite count_events_snoc.
    unfold uncaught. simpl. rewrite Hc, andb_false_r. lia. }
  apply respects_try_except; first [exact _ | idtac].
  - apply respects_bind; first [exact _ | idtac]; [| intros _]; by apply Hleaf.
  - intros e. solve_respects.
Qed.

Lemma strict_close_annoying_modal : strict close_annoying_modal.
Proof.
  unfold close_annoying_modal. apply strict_bind; [apply strict_ext_call |].
  intros _. apply strict_of_respects, modal_try_uncaught.
Qed.

Lemma strict_mkdir (d : string) : strict (mkdir d).
Proof.
  intros w. unfold mkdir. destruct (subdirs w !! d); [simpl; lia |].
  apply (strict_bind (ext_call (Mkdir d)) (fun _ => create_dir d)).
  - apply strict_ext_call.
  - intros _ w1. reflexivity.
Qed.

Lemma strict_ensure_dir (d : string) : strict (ensure_dir d).
Proof.
  unfold ensure_dir. apply strict_bind.
  - apply strict_of_respects. solve_respects.
  - intros []; simpl; [apply strict_ret | apply strict_mkdir].
Qed.

Lemma strict_archive_receipts : strict archive_receipts.
Proof.
  intros w. unfold archive_receipts.
  match goal with |- context [mbind ?k ?m w] => apply (strict_bind m k) end.
  - apply strict_ext_call.
  - intros [|[entries|] e];
      (apply strict_bind;
       [apply strict_of_respects; solve_respects
       | intros _; first [apply strict_raise | apply strict_of_respects; solve_respects]]).
Qed.

Ltac strict_step :=
  lazymatch goal with
  | |- strict (mbind _ _) => apply strict_bind
  | |- strict (ret _) => apply strict_ret
  | |- strict (raise _) => apply strict_raise
  | |- strict (ext_call _) => apply strict_ext_call
  | |- strict (for_each _ _) => apply strict_for_each
  | |- strict (if ?b then _ else _) => destruct b
  | |- strict (match ?x with _ => _ end) => destruct x
  | |- strict _ => apply strict_of_respects; solve [solve_respects]
  | |- forall _, _ => intros ?; cbv beta
  end.

Lemma strict_submit_loop (success : bool) (count : Z) : strict (submit_loop success count).
Proof.
  remember (Z.to_nat (MAX_SUBMISSION_ATTEMPTS + 1 - count)) as n eqn:Hn.
  revert success count Hn.
  induction n as [n IH] using lt_wf_ind. intros success count Hn.
  rewrite submit_loop_eq.
  destruct (negb success && (count <=? MAX_SUBMISSION_ATTEMPTS)%Z) eqn:Hcond.
  - apply andb_true_iff in Hcond as [_ Hle]. apply Z.leb_le in Hle.
    unfold check_order_success.
    repeat first [ apply (IH (Z.to_nat (MAX_SUBMISSION_ATTEMPTS + 1 - (count + 1))));
                   [subst n; unfold MAX_SUBMISSION_ATTEMPTS in *; lia | reflexivity]
                 | strict_step ].
  - apply strict_ret.
Qed.

Ltac solve_strict :=
  repeat first
    [ apply strict_submit_loop
    | lazymatch goal with
      | |- strict close_annoying_modal => apply strict_close_annoying_modal
      | |- strict archive_receipts => apply strict_archive_receipts
      | |- strict (ensure_dir _) => apply strict_ensure_dir
      end
    | strict_step
    | progress unfold program, order_robots_from_RobotSpareBin, module_init, get_orders,
        open_robot_order_website, go_to_place_order_page, get_model_parts, first_table,
        fill_the_form, add_str, preview_order, submit_until_success, click_order_another,
        store_receipt_as_pdf, screenshot_robot, process_order, embed_screenshot_to_receipt ].

Lemma program_strict : strict program.
Proof. solve_strict. Qed.

(** Only the exceptions of the modal are swallowed: in a run that returns
    normally no other library call has raised, and in a run that raises at
    most one has. *)
Theorem only_modal_exceptions_are_swallowed (w : World) :
  match (program w).2 with
  | Ok _ => count_events uncaught (trace (program w).1) = count_events uncaught (trace w)
  | Raise _ =>
      (count_events uncaught (trace (program w).1) <= S (count_events uncaught (trace w)))%nat
  end.
Proof. apply program_strict. Qed.

(** ** The archive of a run that raises *)

#[local] Instance zip_guard_preorder : PreOrder zip_guard.
Proof.
  split.
  - intros w. split; [lia | intros _; reflexivity].
  - intros w1 w2 w3 [Hle12 H12] [Hle23 H23]. split; [lia |].
    intros Heq. etrans; [apply H12 | apply H23]; lia.
Qed.

(** What neither calls [make_archive] nor writes the archive file. *)
Lemma zip_guard_of_respects {A : Type} (m : M A) :
  respects (same_count is_make_archive) m -> respects same_zip m -> respects zip_guard m.
Proof.
  intros Hcount Hzip w. specialize (Hcount w). specialize (Hzip w).
  unfold same_count in Hcount. split; [lia | intros _; exact Hzip].
Qed.

Lemma zip_guard_archive_receipts : respects zip_guard archive_receipts.
Proof.
  assert (Hmore : forall w w' : World,
            (count_events is_make_archive (trace w) < count_events is_make_archive (trace w'))%nat ->
            zip_guard w w') by (intros w w' Hlt; split; lia).
  intros w. unfold archive_receipts. rewrite bind_unfold. unfold ext_call.
  destruct (respond _ (MakeArchive (subdirs w !! PDFS_PATH)) (outside w))
    as [s [[|[entries|] e]|e]];
    apply Hmore; simpl; rewrite ?count_events_app; simpl; lia.
Qed.

Lemma zip_guard_program : respects zip_guard program.
Proof.
  unfold program, order_robots_from_RobotSpareBin.
  repeat (apply respects_bind;
          [exact _
          | apply zip_guard_of_respects; solve [solve_respects]
          | intros ?]).
  apply zip_guard_archive_receipts.
Qed.

(** The archive file changes only in a run that comes to call
    [make_archive]: a run that makes no such call, because it raised
    before, leaves the zip file of the output directory, if there was
    one, as it was. *)
Theorem run_without_make_archive_keeps_the_zip (w : World) :
  count_events is_make_archive (trace (program w).1) =
    count_events is_make_archive (trace w) ->
  archive (program w).1 = archive w /\
  exists e, (program w).2 = Raise e.
Proof.
  intros Hcount.
  destruct (zip_guard_program w) as [_ Hzip].
  split.
  - unfold archive. by rewrite (Hzip Hcount).
  - destruct (program w) as [w' [[]|e]] eqn:Hrun; [| eauto]. exfalso.
    apply program_ok in Hrun
      as (w0 & w1 & w2 & w3 & w4 & orders_df & d & Hinit & Horders & Hsite & Hparts & Hloop & Harch).
    keeps (same_count is_make_archive) Hinit. keeps (same_count is_make_archive) Horders.
    keeps (same_count is_make_archive) Hsite. keeps (same_count is_make_archive) Hparts.
    keeps (same_count is_make_archive) Hloop.
    unfold archive_receipts in Harch.
    apply bind_ok_inv in Harch as (wa & outcome & Hcall & Hrest).
    apply ext_call_inv in Hcall as [sa ->].
    assert (Hlast : count_events is_make_archive (trace w') =
                    S (count_events is_make_archive (trace w4))).
    { destruct outcome as [|remains e].
      - apply bind_ok_inv in Hrest as (wb & [] & Hwrite & Hprint).
        injection Hwrite as <-. injection Hprint as <-.
        simpl. rewrite !count_events_app. simpl. lia.
      - apply bind_ok_inv in Hrest as (wb & [] & _ & Hraise). discriminate Hraise. }
    simpl in Hcount. unfold same_count in *. lia.
Qed.

(** ** Counting what one submission and one order do *)

(** The loop that returns normally made [k] attempts, the last of which
    succeeded ([s = 1]) unless all the iterations left were used up. *)
Lemma submit_loop_counts (n : nat) :
  forall (count : Z) (w w' : World),
    Z.to_nat (MAX_SUBMISSION_ATTEMPTS + 1 - count) = n ->
    submit_loop false count w = (w', Ok tt) ->
    exists k s : nat,
      (s <= 1 /\ s <= k /\ k <= n /\ (1 <= n -> 1 <= k) /\ (s = 1 \/ k = n))%nat /\
      count_events is_submit_click (trace w') = (count_events is_submit_click (trace w) + k)%nat /\
      count_events is_success_check (trace w') = (count_events is_success_check (trace w) + s)%nat /\
      count_events is_failed_check (trace w') = (count_events is_failed_check (trace w) + (k - s))%nat /\
      count_events is_warning (trace w') = (count_events is_warning (trace w) + (k - s))%nat /\
      count_events is_printed (trace w') = (count_events is_printed (trace w) + (k - s))%nat.
Proof.
  induction n as [|n IH]; intros count w w' Hn Hrun.
  - rewrite submit_loop_bound in Hrun by (unfold MAX_SUBMISSION_ATTEMPTS in *; lia).
    injection Hrun as <-. exists 0%nat, 0%nat. repeat split; lia.
  - assert (Hle : (count <= MAX_SUBMISSION_ATTEMPTS)%Z)
      by (unfold MAX_SUBMISSION_ATTEMPTS in *; lia).
    rewrite (submit_loop_step _ _ Hle) in Hrun.
    destruct (respond _ (Click Sel.order) (outside w)) as [s1 [u|e]]; [| discriminate].
    simpl in Hrun.
    destruct (respond _ (IsVisible Sel.alert) s1) as [s2 [[]|e]]; [| | discriminate].
    + apply IH in Hrun as (k & s & Hks & Hc & Hs & Hf & Hw & Hp);
        [| unfold MAX_SUBMISSION_ATTEMPTS in *; lia].
      simpl in Hc, Hs, Hf, Hw, Hp.
      rewrite !(count_events_snoc is_submit_click) in Hc.
      rewrite !(count_events_snoc is_success_check) in Hs.
      rewrite !(count_events_snoc is_failed_check) in Hf.
      rewrite !(count_events_snoc is_warning) in Hw.
      rewrite !(count_events_snoc is_printed) in Hp.
      simpl in Hc, Hs, Hf, Hw, Hp.
      exists (S k), s. repeat split; lia.
    + rewrite submit_loop_done in Hrun. injection Hrun as <-.
      exists 1%nat, 1%nat. simpl.
      rewrite !(count_events_snoc is_submit_click), !(count_events_snoc is_success_check),
        !(count_events_snoc is_failed_check), !(count_events_snoc is_warning),
        !(count_events_snoc is_printed).
      simpl. repeat split; lia.
Qed.

(** When [submit_until_success] returns normally it has clicked between
    one and [MAX_SUBMISSION_ATTEMPTS + 1] times; either the last check
    found no error or the bound was used up; and every attempt that failed
    left one printed line and one warning. *)
Theorem submit_until_success_returns (w w' : World) :
  submit_until_success w = (w', Ok tt) ->
  exists k s : nat,
    (1 <= Z.of_nat k <= MAX_SUBMISSION_ATTEMPTS + 1)%Z /\
    (s = 1%nat \/ (s = 0%nat /\ Z.of_nat k = MAX_SUBMISSION_ATTEMPTS + 1)%Z) /\
    count_events is_submit_click (trace w') = (count_events is_submit_click (trace w) + k)%nat /\
    count_events is_success_check (trace w') = (count_events is_success_check (trace w) + s)%nat /\
    count_events is_failed_check (trace w') = (count_events is_failed_check (trace w) + (k - s))%nat /\
    count_events is_warning (trace w') = (count_events is_warning (trace w) + (k - s))%nat /\
    count_events is_printed (trace w') = (count_events is_printed (trace w) + (k - s))%nat.
Proof.
  unfold submit_until_success. intros Hrun.
  apply (submit_loop_counts _ _ _ _ eq_refl) in Hrun
    as (k & s & (Hs1 & Hsk & Hkn & Hk1 & Hend) & Hcounts).
  change (Z.to_nat (MAX_SUBMISSION_ATTEMPTS + 1 - 0)) with 6%nat in *.
  exists k, s. unfold MAX_SUBMISSION_ATTEMPTS.
  split; [lia |]. split; [lia | exact Hcounts].
Qed.

Lemma submit_until_success_returns_counts (w w' : World) :
  submit_until_success w = (w', Ok tt) ->
  exists k : nat, (1 <= k <= 6)%nat /\
    count_events is_submit_click (trace w') = (count_events is_submit_click (trace w) + k)%nat.
Proof.
  unfold submit_until_success. intros Hrun.
  apply (submit_loop_counts _ _ _ _ eq_refl) in Hrun
    as (k & s & (Hs1 & Hsk & Hkn & Hk1 & Hend) & Hc & _).
  change (Z.to_nat (MAX_SUBMISSION_ATTEMPTS + 1 - 0)) with 6%nat in *.
  exists k. split; [lia | exact Hc].
Qed.

(** The form of one order: four interactions. *)
Lemma fill_the_form_fills (row : order_row) (w w' : World) :
  fill_the_form row w = (w', Ok tt) ->
  count_events is_form_fill (trace w') = (count_events is_form_fill (trace w) + 4)%nat.
Proof.
  unfold fill_the_form. destruct row as [on head body legs address]. intros H.
  apply bind_ok_inv in H as (w1 & [] & Hprint & H).
  apply bind_ok_inv in H as (w2 & value & Hadd & H).
  apply bind_ok_inv in H as (w3 & [] & Hselect & H).
  apply bind_ok_inv in H as (w4 & [] & Hcheck & H).
  apply bind_ok_inv in H as (w5 & [] & Hlegs & Haddress).
  injection Hprint as <-.
  assert (w2 = logged (Printed (str head)) w) as ->.
  { unfold add_str in Hadd.
    destruct head as [[z|h]|]; unfold ret, raise in Hadd;
      [discriminate Hadd | by injection Hadd | discriminate Hadd]. }
  apply ext_call_inv in Hselect as [s3 ->]. apply ext_call_inv in Hcheck as [s4 ->].
  apply ext_call_inv in Hlegs as [s5 ->]. apply ext_call_inv in Haddress as [s6 ->].
  simpl. rewrite !count_events_snoc. simpl. lia.
Qed.

Lemma close_annoying_modal_waits (w w' : World) :
  close_annoying_modal w = (w', Ok tt) ->
  count_events is_modal_wait (trace w') = S (count_events is_modal_wait (trace w)).
Proof.
  rewrite close_annoying_modal_eq.
  destruct (respond _ BrowserPage (outside w)) as [s0 [u0|e0]]; [| discriminate].
  simpl.
  destruct (respond _ (WaitForSelector Sel.modal 2000) s0) as [s1 [u1|e1]];
    [destruct (respond _ (Click Sel.ok_button) s1) as [s2 [u2|e2]];
     [| destruct (is_Exception e2)]
    | destruct (is_Exception e1)];
    intros H; try discriminate H; injection H as <-;
    simpl; rewrite !count_events_app; simpl; lia.
Qed.

(** One order, processed normally: one wait for the modal, four
    interactions with the form, one to six clicks on submit. *)
Lemma process_order_counts (row : order_row) (w w' : World) :
  process_order row w = (w', Ok tt) ->
  count_events is_modal_wait (trace w') = S (count_events is_modal_wait (trace w)) /\
  count_events is_form_fill (trace w') = (count_events is_form_fill (trace w) + 4)%nat /\
  exists k : nat, (1 <= k <= 6)%nat /\
    count_events is_submit_click (trace w') = (count_events is_submit_click (trace w) + k)%nat.
Proof.
  unfold process_order. intros H.
  apply bind_ok_inv in H as (w1 & [] & Hclose & H).
  apply bind_ok_inv in H as (w2 & [] & Hfill & H).
  apply bind_ok_inv in H as (w3 & [] & Hpreview & H).
  apply bind_ok_inv in H as (w4 & [] & Hsubmit & H).
  apply bind_ok_inv in H as (w5 & rp & Hstore & H).
  apply bind_ok_inv in H as (w6 & sp & Hshot & H).
  apply bind_ok_inv in H as (w7 & [] & Hembed & Hclick).
  split; [| split].
  - pose proof (close_annoying_modal_waits _ _ Hclose) as Hwait.
    keeps (same_count is_modal_wait) Hfill. keeps (same_count is_modal_wait) Hpreview.
    keeps (same_count is_modal_wait) Hsubmit. keeps (same_count is_modal_wait) Hstore.
    keeps (same_count is_modal_wait) Hshot. keeps (same_count is_modal_wait) Hembed.
    keeps (same_count is_modal_wait) Hclick.
    unfold same_count in *. congruence.
  - apply fill_the_form_fills in Hfill.
    keeps (same_count is_form_fill) Hclose. keeps (same_count is_form_fill) Hpreview.
    keeps (same_count is_form_fill) Hsubmit. keeps (same_count is_form_fill) Hstore.
    keeps (same_count is_form_fill) Hshot. keeps (same_count is_form_fill) Hembed.
    keeps (same_count is_form_fill) Hclick.
    unfold same_count in *. congruence.
  - apply submit_until_success_returns_counts in Hsubmit as (k & Hk & Hc).
    keeps (same_count is_submit_click) Hclose. keeps (same_count is_submit_click) Hfill.
    keeps (same_count is_submit_click) Hpreview. keeps (same_count is_submit_click) Hstore.
    keeps (same_count is_submit_click) Hshot. keeps (same_count is_submit_click) Hembed.
    keeps (same_count is_submit_click) Hclick.
    unfold same_count in *. exists k. split; [exact Hk | congruence].
Qed.

(** ** The interactions of a whole run *)

Lemma for_each_orders_counts (rows : list order_row) (w w' : World) :
  for_each rows process_order w = (w', Ok tt) ->
  count_events is_modal_wait (trace w') = (count_events is_modal_wait (trace w) + length rows)%nat /\
  count_events is_form_fill (trace w') = (count_events is_form_fill (trace w) + 4 * length rows)%nat /\
  exists k : nat, (length rows <= k <= 6 * length rows)%nat /\
    count_events is_submit_click (trace w') = (count_events is_submit_click (trace w) + k)%nat.
Proof.
  revert w. induction rows as [|row rows IH]; intros w H; simpl in H.
  - injection H as <-. simpl. split; [lia |]. split; [lia |]. exists 0%nat. lia.
  - apply bind_ok_inv in H as (w1 & [] & Hrow & Hrest).
    apply process_order_counts in Hrow as (Hwait & Hfill & k1 & Hk1 & Hclick).
    destruct (IH _ Hrest) as (IHwait & IHfill & k & Hk & IHclick).
    simpl. split; [lia |]. split; [lia |]. exists (k1 + k)%nat. lia.
Qed.

Lemma program_counts (w w' : World) :
  program w = (w', Ok tt) ->
  exists w0 w1 orders_df,
    module_init w = (w0, Ok tt) /\
    get_orders w0 = (w1, Ok orders_df) /\
    count_events is_modal_wait (trace w') =
      (count_events is_modal_wait (trace w) + S (length orders_df))%nat /\
    count_events is_form_fill (trace w') =
      (count_events is_form_fill (trace w) + 4 * length orders_df)%nat /\
    exists k : nat,
      (Z.of_nat (length orders_df) <= Z.of_nat k
         <= (MAX_SUBMISSION_ATTEMPTS + 1) * Z.of_nat (length orders_df))%Z /\
      count_events is_submit_click (trace w') =
        (count_events is_submit_click (trace w) + k)%nat.
Proof.
  intros H.
  apply program_ok in H
    as (w0 & w1 & w2 & w3 & w4 & orders_df & d & Hinit & Horders & Hsite & Hparts & Hloop & Harch).
  exists w0, w1, orders_df. split; [exact Hinit |]. split; [exact Horders |].
  apply for_each_orders_counts in Hloop as (Hwait & Hfill & k & Hk & Hclick).
  rewrite map_head_length in Hwait, Hfill, Hk.
  unfold site_opening in Hsite.
  apply bind_ok_inv in Hsite as (w1a & [] & Hopen & Hsite).
  apply bind_ok_inv in Hsite as (w1b & [] & Hgoto & Hclose).
  pose proof (close_annoying_modal_waits _ _ Hclose) as Hwait1.
  split; [| split].
  - keeps (same_count is_modal_wait) Hinit. keeps (same_count is_modal_wait) Horders.
    keeps (same_count is_modal_wait) Hopen. keeps (same_count is_modal_wait) Hgoto.
    keeps (same_count is_modal_wait) Hparts. keeps (same_count is_modal_wait) Harch.
    unfold same_count in *. lia.
  - keeps (same_count is_form_fill) Hinit. keeps (same_count is_form_fill) Horders.
    keeps (same_count is_form_fill) Hopen. keeps (same_count is_form_fill) Hgoto.
    keeps (same_count is_form_fill) Hclose.
    keeps (same_count is_form_fill) Hparts. keeps (same_count is_form_fill) Harch.
    unfold same_count in *. lia.
  - keeps (same_count is_submit_click) Hinit. keeps (same_count is_submit_click) Horders.
    keeps (same_count is_submit_click) Hopen. keeps (same_count is_submit_click) Hgoto.
    keeps (same_count is_submit_click) Hclose.
    keeps (same_count is_submit_click) Hparts. keeps (same_count is_submit_click) Harch.
    unfold same_count in *. exists k. unfold MAX_SUBMISSION_ATTEMPTS. split; lia.
Qed.

(** In a run that returns normally over [n] orders the script waits for
    the modal [n + 1] times, interacts with the form [4 n] times, and
    clicks submit between [n] and [(MAX_SUBMISSION_ATTEMPTS + 1) n]
    times. *)
Theorem run_interactions (w w' : World) :
  program w = (w', Ok tt) ->
  exists w0 w1 orders_df,
    module_init w = (w0, Ok tt) /\
    get_orders w0 = (w1, Ok orders_df) /\
    count_events is_modal_wait (trace w') =
      (count_events is_modal_wait (trace w) + S (length orders_df))%nat /\
    count_events is_form_fill (trace w') =
      (count_events is_form_fill (trace w) + 4 * length orders_df)%nat /\
    exists k : nat,
      (Z.of_nat (length orders_df) <= Z.of_nat k
         <= (MAX_SUBMISSION_ATTEMPTS + 1) * Z.of_nat (length orders_df))%Z /\
      count_events is_submit_click (trace w') =
        (count_events is_submit_click (trace w) + k)%nat.
Proof. apply program_counts. Qed.

(** ** The files of every order *)

Lemma has_file_kept (w w' : World) (p : path) :
  keeps_files w w' -> has_file w p -> has_file w' p.
Proof.
  intros Hkeep [c Hc]. unfold has_file in *.
  destruct (subdirs w !! p.1) as [files|] eqn:Hdir; [| discriminate].
  simpl in Hc. destruct (Hkeep _ _ Hdir) as (files' & -> & Hsub). simpl.
  apply elem_of_dom, Hsub, elem_of_dom. eauto.
Qed.

Lemma write_file_inv (p : path) (c : content) (w w' : World) :
  write_file p c w = (w', Ok tt) -> has_file w' p.
Proof.
  unfold write_file, has_file.
  destruct (subdirs w !! p.1) as [files|]; [| discriminate].
  intros H. injection H as <-. simpl. rewrite lookup_insert_eq. simpl.
  rewrite lookup_insert_eq. eauto.
Qed.

(** An order processed normally has its three files. *)
Lemma process_order_files (row : order_row) (w w' : World) :
  process_order row w = (w', Ok tt) ->
  has_file w' (RECEIPTS_PATH, receipt_name (Order_number row)) /\
  has_file w' (IMAGES_PATH, screenshot_name (Order_number row)) /\
  has_file w' (PDFS_PATH, merged_name (Order_number row)).
Proof.
  unfold process_order. intros H.
  apply bind_ok_inv in H as (w1 & [] & Hclose & H).
  apply bind_ok_inv in H as (w2 & [] & Hfill & H).
  apply bind_ok_inv in H as (w3 & [] & Hpreview & H).
  apply bind_ok_inv in H as (w4 & [] & Hsubmit & H).
  apply bind_ok_inv in H as (w5 & rp & Hstore & H).
  apply bind_ok_inv in H as (w6 & sp & Hshot & H).
  apply bind_ok_inv in H as (w7 & [] & Hembed & Hclick).
  keeps keeps_files Hshot. keeps keeps_files Hembed. keeps keeps_files Hclick.
  unfold store_receipt_as_pdf in Hstore.
  apply bind_ok_inv in Hstore as (w4a & html & _ & Hstore).
  apply bind_ok_inv in Hstore as (w4b & pdf & _ & Hstore).
  apply bind_ok_inv in Hstore as (w4c & [] & Hwrite & Hret).
  injection Hret as <- <-. apply write_file_inv in Hwrite.
  unfold screenshot_robot in Hshot.
  apply bind_ok_inv in Hshot as (w5a & png & _ & Hshot).
  apply bind_ok_inv in Hshot as (w5b & [] & Hwrite' & Hret).
  injection Hret as <- <-. apply write_file_inv in Hwrite'.
  unfold embed_screenshot_to_receipt in Hembed.
  apply bind_ok_inv in Hembed as (w6a & pdf' & _ & Hembed).
  apply bind_ok_inv in Hembed as (w6b & png' & _ & Hembed).
  apply bind_ok_inv in Hembed as (w6c & merged & _ & Hwrite'').
  apply write_file_inv in Hwrite''.
  split; [| split].
  - apply (has_file_kept w4c); [| exact Hwrite].
    do 2 (etrans; [eassumption |]). assumption.
  - apply (has_file_kept w5b); [| exact Hwrite']. by etrans.
  - by apply (has_file_kept w7).
Qed.

Lemma for_each_orders_files (rows : list order_row) (w w' : World) :
  for_each rows process_order w = (w', Ok tt) ->
  forall row, row ∈ rows ->
    has_file w' (RECEIPTS_PATH, receipt_name (Order_number row)) /\
    has_file w' (IMAGES_PATH, screenshot_name (Order_number row)) /\
    has_file w' (PDFS_PATH, merged_name (Order_number row)).
Proof.
  revert w. induction rows as [|row0 rows IH]; intros w H row Hrow.
  - by apply elem_of_nil in Hrow.
  - simpl in H. apply bind_ok_inv in H as (w1 & [] & Hrow0 & Hrest).
    apply elem_of_cons in Hrow as [-> | Hrow].
    + apply process_order_files in Hrow0 as (Hr & Hi & Hp).
      keeps keeps_files Hrest.
      repeat split; by apply (has_file_kept w1).
    + by apply (IH w1).
Qed.

(** The merge keeps what it merges: after a run that returns normally the
    receipt, the screenshot and the merged document of every order are in
    their directories. *)
Theorem every_order_keeps_its_three_files (w w' : World) :
  program w = (w', Ok tt) ->
  exists w0 w1 orders_df,
    module_init w = (w0, Ok tt) /\
    get_orders w0 = (w1, Ok orders_df) /\
    forall row, row ∈ orders_df ->
      has_file w' (RECEIPTS_PATH, receipt_name (Order_number row)) /\
      has_file w' (IMAGES_PATH, screenshot_name (Order_number row)) /\
      has_file w' (PDFS_PATH, merged_name (Order_number row)).
Proof.
  intros H.
  apply program_ok in H
    as (w0 & w1 & w2 & w3 & w4 & orders_df & d & Hinit & Horders & Hsite & Hparts & Hloop & Harch).
  exists w0, w1, orders_df. split; [exact Hinit |]. split; [exact Horders |].
  intros row Hrow.
  keeps keeps_files Harch.
  assert (Hin : OrderRow (Order_number row) (series_map d (Head row)) (Body row) (Legs row)
                  (Address row) ∈ map_head d orders_df).
  { unfold map_head. apply list_elem_of_fmap. eauto. }
  destruct (for_each_orders_files _ _ _ Hloop _ Hin) as (Hr & Hi & Hp). simpl in *.
  repeat split; by apply (has_file_kept w4).
Qed.

(** ** The import, again *)



(** ** A head the catalog does not know *)

Lemma bind_raise {A B : Type} (m : M A) (k : A -> M B) (w w' : World) (e : exn) :
  m w = (w', Raise e) -> (m ≫= k) w = (w', Raise e).
Proof. intros H. rewrite bind_unfold, H. reflexivity. Qed.



(** ** The names of the files *)

Lemma string_app_length (s t : string) :
  String.length (s +:+ t) = (String.length s + String.length t)%nat.
Proof. induction s as [|a s IH]; simpl; [done | by rewrite IH]. Qed.

Lemma string_app_inv_tail (s1 s2 t : string) : s1 +:+ t = s2 +:+ t -> s1 = s2.
Proof.
  revert s2. induction s1 as [|a s1 IH]; intros [|b s2] H.
  - done.
  - apply (f_equal String.length) in H. rewrite !string_app_length in H. simpl in H. lia.
  - apply (f_equal String.length) in H. rewrite !string_app_length in H. simpl in H. lia.
  - change (String a (s1 +:+ t) = String b (s2 +:+ t)) in H.
    injection H as -> H. f_equal. by apply IH.
Qed.

Lemma name_of_int_inj (prefix suffix : string) (a b : Z) :
  prefix +:+ pretty a +:+ suffix = prefix +:+ pretty b +:+ suffix -> a = b.
Proof.
  intros H. apply (inj (String.app _)) in H. apply string_app_inv_tail in H.
  by apply (inj pretty) in H.
Qed.

(** Orders with different integer numbers never share a file: their
    receipts, their screenshots and their merged documents have different
    names. *)
Theorem integer_order_numbers_name_different_files (a b : Z) :
  a <> b ->
  receipt_name (Some (SInt a)) <> receipt_name (Some (SInt b)) /\
  screenshot_name (Some (SInt a)) <> screenshot_name (Some (SInt b)) /\
  merged_name (Some (SInt a)) <> merged_name (Some (SInt b)).
Proof.
  intros Hne. unfold receipt_name, screenshot_name, merged_name. simpl.
  repeat split; intros H; by apply name_of_int_inj in H.
Qed.

Lemma merged_names_NoDup (orders_df : list order_row) :
  (forall row, row ∈ orders_df -> exists z, Order_number row = Some (SInt z)) ->
  NoDup (Order_number <$> orders_df) ->
  NoDup (merged_names orders_df).
Proof.
  intros Hint Hnodup. unfold merged_names.
  change (fun row => merged_name (Order_number row)) with (merged_name ∘ Order_number).
  rewrite list_fmap_compose.
  apply NoDup_fmap_2_strong; [| exact Hnodup].
  intros x y Hx Hy Heq.
  apply list_elem_of_fmap in Hx as (rx & -> & Hrx).
  apply list_elem_of_fmap in Hy as (ry & -> & Hry).
  destruct (Hint rx Hrx) as [zx Hzx]. destruct (Hint ry Hry) as [zy Hzy].
  rewrite Hzx, Hzy in *. f_equal. f_equal.
  by apply (name_of_int_inj "receipt_with_screenshot_" ".pdf").
Qed.

(** With integer order numbers that are pairwise different, and a
    directory of merged documents that was empty or absent before the
    run, the archive of a run that returns normally has as many entries
    as the orders table has rows. *)
Theorem one_archive_entry_per_integer_order (w w' : World) :
  program w = (w', Ok tt) ->
  pdfs w = ∅ ->
  (forall w0 w1 orders_df,
     module_init w = (w0, Ok tt) -> get_orders w0 = (w1, Ok orders_df) ->
     (forall row, row ∈ orders_df -> exists z, Order_number row = Some (SInt z)) /\
     NoDup (Order_number <$> orders_df)) ->
  exists w0 w1 orders_df entries,
    module_init w = (w0, Ok tt) /\
    get_orders w0 = (w1, Ok orders_df) /\
    archive w' = Some entries /\
    size entries = length orders_df /\
    forall n, is_Some (entries !! n) <-> n ∈ merged_names orders_df.
Proof.
  intros H Hempty Horders_ok.
  apply program_merged in H
    as (w0 & w1 & orders_df & Hinit & Horders & _ & Hzip & Hdom & _).
  destruct (Horders_ok w0 w1 orders_df Hinit Horders) as (Hint & Hnodup).
  exists w0, w1, orders_df, (pdfs w').
  split; [exact Hinit |]. split; [exact Horders |]. split; [exact Hzip |].
  rewrite Hempty, dom_empty_L, (left_id_L ∅ (∪)) in Hdom.
  split.
  - rewrite <- size_dom, Hdom, size_list_to_set by (by apply merged_names_NoDup).
    unfold merged_names. by rewrite length_fmap.
  - intros n. rewrite <- elem_of_dom, Hdom. apply elem_of_list_to_set.
Qed.

(** ** An empty table of orders *)

(** With no order in the table, a run that returns normally fills no
    form, clicks no submit and writes no merged document; it waits for the
    modal once and archives the directory of the merged documents as it
    found it. *)
Theorem empty_table_archives_what_was_there (w w' w0 w1 : World) :
  program w = (w', Ok tt) ->
  module_init w = (w0, Ok tt) ->
  get_orders w0 = (w1, Ok []) ->
  archive w' = Some (pdfs w) /\
  count_events is_form_fill (trace w') = count_events is_form_fill (trace w) /\
  count_events is_submit_click (trace w') = count_events is_submit_click (trace w) /\
  count_events is_merged_write (trace w') = count_events is_merged_write (trace w) /\
  count_events is_modal_wait (trace w') = S (count_events is_modal_wait (trace w)).
Proof.
  intros H Hinit Horders.
  pose proof (program_merged _ _ H)
    as (w0' & w1' & orders_df & Hinit' & Horders' & Hmerged & Hzip & _ & Hother).
  pose proof (program_counts _ _ H)
    as (w0'' & w1'' & orders_df' & Hinit'' & Horders'' & Hwait & Hfill & k & Hk & Hclick).
  rewrite Hinit in Hinit', Hinit''. injection Hinit' as <-. injection Hinit'' as <-.
  rewrite Horders in Horders', Horders''.
  injection Horders' as <- <-. injection Horders'' as <- <-.
  simpl in *.
  assert (Hpdfs : pdfs w' = pdfs w).
  { apply map_eq. intros n. apply Hother. unfold merged_names. simpl. apply not_elem_of_nil. }
  rewrite Hzip, Hpdfs. repeat split; lia.
Qed.

(** ** No network *)

Lemma ensure_dir_trace (d : string) (w w' : World) :
  ensure_dir d w = (w', Ok tt) ->
  exists t, trace w' = trace w ++ t /\
    forall ev, ev ∈ t -> ev = Called (Mkdir d) (Ok tt).
Proof.
  unfold ensure_dir. rewrite bind_unfold. unfold path_exists.
  destruct (subdirs w !! d) as [files|] eqn:E.
  - rewrite bool_decide_true by eauto. simpl. intros H. injection H as <-.
    exists []. rewrite app_nil_r. split; [done |]. intros ev Hev. by apply elem_of_nil in Hev.
  - rewrite bool_decide_false by (by intros [? ?]). simpl.
    unfold mkdir. rewrite E. intros H.
    apply bind_ok_inv in H as (w1 & [] & Hcall & Hmake).
    apply ext_call_inv in Hcall as [s ->]. injection Hmake as <-. simpl.
    eexists. split; [reflexivity |]. intros ev Hev. by apply list_elem_of_singleton in Hev.
Qed.

(** An import that returned has called nothing but [mkdir]. *)
Lemma module_init_trace (w w0 : World) :
  module_init w = (w0, Ok tt) ->
  exists t, trace w0 = trace w ++ t /\
    forall ev, ev ∈ t -> exists d, ev = Called (Mkdir d) (Ok tt).
Proof.
  unfold module_init. intros H.
  apply bind_ok_inv in H as (w1 & [] & H1 & H).
  apply bind_ok_inv in H as (w2 & [] & H2 & H3).
  apply ensure_dir_trace in H1 as (t1 & Ht1 & Hev1).
  apply ensure_dir_trace in H2 as (t2 & Ht2 & Hev2).
  apply ensure_dir_trace in H3 as (t3 & Ht3 & Hev3).
  exists (t1 ++ t2 ++ t3). split.
  - rewrite Ht3, Ht2, Ht1. by rewrite <- !app_assoc.
  - intros ev. rewrite !elem_of_app. intros [Hev | [Hev | Hev]]; eauto.
Qed.

(** When the import has returned and the download of the orders raises,
    the run raises the same exception at once: the directories that were
    missing have been made, but nothing is written in the output
    directory and the browser is never called. *)
Theorem failed_download_aborts_the_run (w w0 : World) (s : St) (e : exn) :
  module_init w = (w0, Ok tt) ->
  respond _ (HttpDownload Sel.orders_csv) (outside w0) = (s, Raise e) ->
  program w = (answered (HttpDownload Sel.orders_csv) s (Raise e) w0, Raise e) /\
  (exists t,
     trace (program w).1 = trace w ++ t ++ [Called (HttpDownload Sel.orders_csv) (Raise e)] /\
     forall ev, ev ∈ t -> exists d, ev = Called (Mkdir d) (Ok tt)) /\
  root_files (program w).1 = root_files w.
Proof.
  intros Hinit Hdown.
  pose proof (module_init_ok _ _ Hinit) as (Hroot & _).
  pose proof (module_init_trace _ _ Hinit) as (t & Htrace & Hmkdir).
  assert (Hrun : program w = (answered (HttpDownload Sel.orders_csv) s (Raise e) w0, Raise e)).
  { unfold program. rewrite (bind_ok _ _ _ _ _ Hinit).
    unfold order_robots_from_RobotSpareBin. apply bind_raise.
    unfold get_orders. apply bind_raise. unfold ext_call.
    by rewrite Hdown. }
  split; [exact Hrun |]. rewrite Hrun. simpl. split; [| exact Hroot].
  exists t. split; [by rewrite Htrace, <- app_assoc | exact Hmkdir].
Qed.

(** ** The order of the rows of the catalog *)

Lemma parts_dict_of_lookup_NoDup (table : list model_row) (r : model_row) :
  NoDup (Part_number <$> table) -> r ∈ table ->
  parts_dict_of table !! Part_number r = Some (Model_name r).
Proof.
  intros Hnodup Hr. apply list_elem_of_lookup in Hr as [i Hi].
  apply (parts_dict_of_last table i r Hi).
  intros j r' Hij Hj Heq.
  assert (i = j); [| lia].
  apply (proj1 (NoDup_alt _) Hnodup i j (Part_number r)).
  - by rewrite list_lookup_fmap, Hi.
  - rewrite list_lookup_fmap, Hj. simpl. by rewrite Heq.
Qed.

(** When no part number comes twice, the catalog does not depend on the
    order of the rows of the table: only duplicates make the order
    matter. *)
Theorem catalog_ignores_row_order (table1 table2 : list model_row) :
  table1 ≡ₚ table2 ->
  NoDup (Part_number <$> table1) ->
  parts_dict_of table1 = parts_dict_of table2.
Proof.
  intros Hperm Hnodup.
  assert (Hnodup2 : NoDup (Part_number <$> table2)) by (by rewrite <- Hperm).
  apply map_eq. intros k.
  destruct (decide (k ∈ Part_number <$> table1)) as [Hin | Hout].
  - apply list_elem_of_fmap in Hin as (r & -> & Hr).
    rewrite (parts_dict_of_lookup_NoDup table1 r Hnodup Hr).
    symmetry. apply parts_dict_of_lookup_NoDup; [exact Hnodup2 | by rewrite <- Hperm].
  - assert (Hout2 : k ∉ Part_number <$> table2) by (by rewrite <- Hperm).
    rewrite <- parts_dict_of_dom in Hout, Hout2.
    apply eq_None_not_Some in Hout, Hout2. by rewrite Hout, Hout2.
Qed.

(** ** An exception inside the submission *)

Lemma submit_loop_raises (n : nat) :
  forall (count : Z) (w w' : World) (e : exn),
    Z.to_nat (MAX_SUBMISSION_ATTEMPTS + 1 - count) = n ->
    submit_loop false count w = (w', Raise e) ->
    exists ev, last (trace w') = Some ev /\ raised_exn ev = Some e /\
      (is_submit_click ev = true \/ kind ev = CheckRaised) /\
      count_events is_success_check (trace w') = count_events is_success_check (trace w).
Proof.
  induction n as [|n IH]; intros count w w' e Hn Hrun.
  - rewrite submit_loop_bound in Hrun by (unfold MAX_SUBMISSION_ATTEMPTS in *; lia).
    discriminate Hrun.
  - assert (Hle : (count <= MAX_SUBMISSION_ATTEMPTS)%Z)
      by (unfold MAX_SUBMISSION_ATTEMPTS in *; lia).
    rewrite (submit_loop_step _ _ Hle) in Hrun.
    destruct (respond _ (Click Sel.order) (outside w)) as [s1 [u|e1]].
    + simpl in Hrun.
      destruct (respond _ (IsVisible Sel.alert) s1) as [s2 [[]|e2]].
      * apply IH in Hrun as (ev & Hlast & Hev & Hkind & Hs);
          [| unfold MAX_SUBMISSION_ATTEMPTS in *; lia].
        exists ev. repeat split; try assumption.
        simpl in Hs. rewrite !(count_events_snoc is_success_check) in Hs. simpl in Hs. lia.
      * rewrite submit_loop_done in Hrun. discriminate Hrun.
      * injection Hrun as <- <-. simpl. eexists. rewrite last_snoc.
        split; [reflexivity |]. split; [reflexivity |]. split; [by right |].
        rewrite !(count_events_snoc is_success_check). simpl. lia.
    + injection Hrun as <- <-. simpl. eexists. rewrite last_snoc.
      split; [reflexivity |]. split; [reflexivity |]. split; [by left |].
      rewrite !(count_events_snoc is_success_check). simpl. lia.
Qed.

(** The loop retries a visible error, not an exception: when
    [submit_until_success] raises, the exception is the one of the last
    library call, which was a click on submit or a success check; the loop
    stopped there, and no check before had succeeded. *)
Theorem submit_until_success_passes_exceptions_on (w w' : World) (e : exn) :
  submit_until_success w = (w', Raise e) ->
  exists ev, last (trace w') = Some ev /\ raised_exn ev = Some e /\
    (is_submit_click ev = true \/ kind ev = CheckRaised) /\
    count_events is_success_check (trace w') = count_events is_success_check (trace w).
Proof. unfold submit_until_success. apply (submit_loop_raises _ _ _ _ _ eq_refl). Qed.

End Script.


(** * The script on the scripted outside *)

(** Six failing checks: six clicks, then the loop gives up and returns. *)
Example six_clicks_when_every_check_fails :
  let run := submit_until_success Demo.outside_world Demo.always_failing in
  run.2 = Ok tt /\
  count_events is_submit_click (trace run.1) = 6%nat /\
  count_events is_failed_check (trace run.1) = 6%nat /\
  kind <$> trace run.1 =
    concat (replicate 6 [ClickOk; CheckFailed; PrintLine; WarnLine]).
Proof. vm_compute. repeat split. Qed.

(** One failing check, then a success: two clicks and no more. *)
Example two_clicks_when_the_second_check_succeeds :
  let run := submit_until_success Demo.outside_world Demo.fresh in
  run.2 = Ok tt /\
  kind <$> trace run.1 = [ClickOk; CheckFailed; PrintLine; WarnLine; ClickOk; CheckSuccess].
Proof. vm_compute. repeat split. Qed.

(** Without an output directory the import raises what the first [mkdir]
    raises, and nothing else is called. *)
Example import_raises_without_output_directory :
  let run := program Demo.no_output_dir "output" Demo.fresh in
  run.2 = Raise (Exception "FileNotFoundError" "receipts") /\
  trace run.1 = [Called (Mkdir "receipts") (Raise (Exception "FileNotFoundError" "receipts"))] /\
  subdirs run.1 = ∅.
Proof. vm_compute. repeat split. Qed.

(** A head that the catalog does not know becomes the missing value, and
    filling the form with it raises. *)
Example unknown_head_raises_in_the_form :
  map_head (parts_dict_of Demo.catalog)
    [OrderRow (Some (SInt 3)) (Some (SInt 7)) None None None]
  = [OrderRow (Some (SInt 3)) NaN None None None] /\
  (fill_the_form Demo.outside_world (OrderRow (Some (SInt 3)) NaN None None None)
     Demo.fresh).2
  = Raise (Exception "TypeError" "unsupported operand type(s) for +").
Proof. vm_compute. repeat split. Qed.

Lemma get_model_parts_later_duplicate_overwrites_witness :
  let respond := Demo.answer Demo.orders Demo.duplicated in
  (get_model_parts respond Demo.fresh).2 = Ok (parts_dict_of Demo.duplicated) /\
  parts_dict_of Demo.duplicated !! SInt 1 = Some (Some (SStr "D.A.V.E")) /\
  parts_dict_of Demo.duplicated !! SInt 2 = Some (Some (SStr "Peanut crusher")).
Proof.
  intros respond.
  destruct (get_model_parts_later_duplicate_overwrites respond Demo.fresh
              (outside Demo.fresh) (outside Demo.fresh) (outside Demo.fresh)
              "html" Demo.duplicated [] eq_refl eq_refl eq_refl)
    as (d & Hrun & -> & _ & Hlast & Hlater).
  split; [by rewrite Hrun |]. split.
  - apply (Hlater 0%nat 2%nat (ModelRow (Some (SStr "Roll-a-thor")) (SInt 1))
             (ModelRow (Some (SStr "D.A.V.E")) (SInt 1))); try reflexivity; [lia |].
    intros l r'' Hl Hlook.
    destruct l as [|[|[|l]]]; [lia | lia | lia | discriminate Hlook].
  - apply (Hlast 1%nat (ModelRow (Some (SStr "Peanut crusher")) (SInt 2)) eq_refl).
    intros j r' Hj Hlook.
    destruct j as [|[|[|j]]]; [lia | lia | | discriminate Hlook].
    injection Hlook as <-. discriminate.
Defined.

Lemma modal_absent_is_recovered_witness :
  is_Exception (Exception "TimeoutError" "Timeout 2000ms exceeded.") = true /\
  (close_annoying_modal Demo.outside_world Demo.always_failing).2 = Ok tt /\
  last (trace (close_annoying_modal Demo.outside_world Demo.always_failing).1) =
    Some (Warned "Modal did not appear: Timeout 2000ms exceeded.").
Proof.
  split; [reflexivity |].
  destruct (modal_absent_is_recovered Demo.outside_world Demo.always_failing
              (outside Demo.always_failing) (outside Demo.always_failing)
              (Exception "TimeoutError" "Timeout 2000ms exceeded.")
              eq_refl eq_refl eq_refl)
    as [Hrun _].
  rewrite Hrun. split; reflexivity.
Defined.

(** C10 fails as stated: an interrupt from the keyboard during the wait
    for the modal is no instance of [Exception], and [browser.page()]
    stands before the [try]; in both cases [close_annoying_modal]
    raises, and logs no warning. *)
Lemma close_annoying_modal_can_raise :
  let interrupted := close_annoying_modal Demo.interrupted Demo.fresh in
  let no_browser := close_annoying_modal Demo.no_browser Demo.fresh in
  interrupted.2 = Raise (BaseException "KeyboardInterrupt" "") /\
  count_events is_warning (trace interrupted.1) = 0%nat /\
  no_browser.2 = Raise (Exception "Error" "Browser has been closed") /\
  count_events is_warning (trace no_browser.1) = 0%nat.
Proof. vm_compute. repeat split. Qed.

Lemma one_merged_write_per_row_witness :
  (program Demo.outside_world "output" Demo.fresh).2 = Ok tt /\
  exists w0 w1 orders_df,
    module_init Demo.outside_world Demo.fresh = (w0, Ok tt) /\
    get_orders Demo.outside_world w0 = (w1, Ok orders_df) /\
    count_events is_merged_write (trace (program Demo.outside_world "output" Demo.fresh).1) =
      (count_events is_merged_write (trace Demo.fresh) + length orders_df)%nat /\
    (forall row, row ∈ orders_df ->
       is_Some (pdfs (program Demo.outside_world "output" Demo.fresh).1
                  !! merged_name (Order_number row))) /\
    dom (pdfs (program Demo.outside_world "output" Demo.fresh).1) =
      dom (pdfs Demo.fresh) ∪ list_to_set (merged_names orders_df).
Proof.
  split; [vm_compute; reflexivity |].
  destruct (one_merged_write_per_row Demo.outside_world "output" Demo.fresh
              (program Demo.outside_world "output" Demo.fresh).1)
    as (w0 & w1 & orders_df & Hinit & Horders & Hcount & Hfiles & Hdom & _).
  - vm_compute. reflexivity.
  - exists w0, w1, orders_df. repeat split; assumption.
Defined.

(** C3 fails as stated: for a table with two rows of the same order
    number the run returns normally and writes the merged document
    twice, under one name; it leaves one merged document, not two. *)
Lemma two_rows_one_merged_document :
  let run := program (Demo.answer [Demo.order1; Demo.order1] Demo.catalog) "output" Demo.fresh in
  run.2 = Ok tt /\
  count_events is_merged_write (trace run.1) = 2%nat /\
  size (pdfs run.1) = 1%nat /\
  size <$> archive run.1 = Some 1%nat.
Proof. vm_compute. repeat split. Qed.

Lemma archive_matches_merged_directory_witness :
  (program Demo.outside_world "output" Demo.fresh).2 = Ok tt /\
  exists w0 w1 orders_df entries,
    module_init Demo.outside_world Demo.fresh = (w0, Ok tt) /\
    get_orders Demo.outside_world w0 = (w1, Ok orders_df) /\
    archive (program Demo.outside_world "output" Demo.fresh).1 = Some entries /\
    entries = pdfs (program Demo.outside_world "output" Demo.fresh).1 /\
    dom entries = dom (pdfs Demo.fresh) ∪ list_to_set (merged_names orders_df) /\
    (pdfs Demo.fresh = ∅ -> NoDup (merged_names orders_df) ->
       size entries = length orders_df /\
       (count_events is_merged_write
          (trace (program Demo.outside_world "output" Demo.fresh).1) =
        count_events is_merged_write (trace Demo.fresh) + size entries)%nat).
Proof.
  split; [vm_compute; reflexivity |].
  apply (archive_matches_merged_directory Demo.outside_world "output" Demo.fresh).
  vm_compute. reflexivity.
Defined.

(** C4 fails as stated: on the output directory of an earlier run the
    script writes two merged documents, and the archive has three entries;
    the third is the merged document of an order of the earlier run. *)
Lemma archive_has_entry_of_no_merged_document :
  let run := program Demo.outside_world "output" Demo.with_leftover in
  run.2 = Ok tt /\
  count_events is_merged_write (trace run.1) = 2%nat /\
  size <$> archive run.1 = Some 3%nat /\
  archive run.1 ≫= (.!! "receipt_with_screenshot_99.pdf") = Some "merged earlier".
Proof. vm_compute. repeat split. Qed.

Lemma leftover_files_are_archived_witness :
  (program Demo.outside_world "output" Demo.with_leftover).2 = Ok tt /\
  keeps_files Demo.with_leftover (program Demo.outside_world "output" Demo.with_leftover).1 /\
  exists w0 w1 orders_df entries t,
    module_init Demo.outside_world Demo.with_leftover = (w0, Ok tt) /\
    get_orders Demo.outside_world w0 = (w1, Ok orders_df) /\
    (forall d files,
       subdirs Demo.with_leftover !! d = Some files -> subdirs w0 !! d = Some files) /\
    archive (program Demo.outside_world "output" Demo.with_leftover).1 = Some entries /\
    entries = pdfs (program Demo.outside_world "output" Demo.with_leftover).1 /\
    (forall n c, pdfs Demo.with_leftover !! n = Some c ->
       n ∉ merged_names orders_df -> entries !! n = Some c) /\
    trace (program Demo.outside_world "output" Demo.with_leftover).1 =
      trace Demo.with_leftover ++ t /\
    (forall n, n ∈ merged_names orders_df ->
       exists row html pdf png merged t1 t2,
         row ∈ orders_df /\ merged_name (Order_number row) = n /\
         t = t1 ++ capture_events row html pdf png merged ++ t2 /\
         entries !! n = Some merged).
Proof.
  split; [vm_compute; reflexivity |].
  apply (leftover_files_are_archived Demo.outside_world "output" Demo.with_leftover).
  vm_compute. reflexivity.
Defined.

(** C9 fails as stated: run again over the same orders, the script
    replaces the merged document that was in the directory before the
    run; neither the directory nor the archive holds the earlier file. *)
Lemma rerun_overwrites_leftover_file :
  let run := program Demo.outside_world "output" Demo.rerun in
  pdfs Demo.rerun !! "receipt_with_screenshot_1.pdf" = Some "merged earlier" /\
  run.2 = Ok tt /\
  pdfs run.1 !! "receipt_with_screenshot_1.pdf" = Some "merged(pdf(html),png)" /\
  archive run.1 ≫= (.!! "receipt_with_screenshot_1.pdf") = Some "merged(pdf(html),png)".
Proof. vm_compute. repeat split. Qed.

Lemma head_substituted_before_filling_witness :
  let w := Demo.fresh in
  let w1 := (get_orders Demo.outside_world w).1 in
  let w2 := (site_opening Demo.outside_world w1).1 in
  let w3 := (get_model_parts Demo.outside_world w2).1 in
  let d := parts_dict_of Demo.catalog in
  get_orders Demo.outside_world w = (w1, Ok Demo.orders) /\
  site_opening Demo.outside_world w1 = (w2, Ok tt) /\
  get_model_parts Demo.outside_world w2 = (w3, Ok d) /\
  order_robots_from_RobotSpareBin Demo.outside_world "output" w =
    bind (for_each (map_head d Demo.orders) (process_order Demo.outside_world))
      (fun _ => archive_receipts Demo.outside_world "output") w3 /\
  count_events is_form_fill (trace w3) = count_events is_form_fill (trace w).
Proof.
  intros w w1 w2 w3 d.
  assert (H1 : get_orders Demo.outside_world w = (w1, Ok Demo.orders))
    by (vm_compute; reflexivity).
  assert (H2 : site_opening Demo.outside_world w1 = (w2, Ok tt))
    by (vm_compute; reflexivity).
  assert (H3 : get_model_parts Demo.outside_world w2 = (w3, Ok d))
    by (vm_compute; reflexivity).
  destruct (head_substituted_before_filling Demo.outside_world "output"
              w w1 w2 w3 Demo.orders d H1 H2 H3) as (Hrun & Hfills & _).
  repeat split; assumption.
Defined.

Lemma exhaustion_is_not_escalated_witness :
  let respond := Demo.outside_world in
  let row := Demo.order1_mapped in
  let w := Demo.always_failing in
  let w1 := (close_annoying_modal respond w).1 in
  let w2 := (fill_the_form respond row w1).1 in
  let w3 := (preview_order respond w2).1 in
  count_events is_failed_check (trace (submit_until_success respond w3).1) = 6%nat /\
  exists w4,
    submit_until_success respond w3 = (w4, Ok tt) /\
    Z.of_nat (count_events is_submit_click (trace w4)) =
      (Z.of_nat (count_events is_submit_click (trace w3)) + (MAX_SUBMISSION_ATTEMPTS + 1))%Z /\
    process_order respond row w = capture_and_reset respond row w4 /\
    for_each [row; row] (process_order respond) w =
      match capture_and_reset respond row w4 with
      | (w', Ok _) => for_each [row] (process_order respond) w'
      | (w', Raise e) => (w', Raise e)
      end.
Proof.
  intros respond row w w1 w2 w3.
  split; [vm_compute; reflexivity |].
  destruct (exhaustion_is_not_escalated respond row [row] w w1 w2 w3)
    as (w4 & Hsubmit & Hclicks & _ & _ & _ & Hrun & Hnext & _).
  - vm_compute. reflexivity.
  - vm_compute. reflexivity.
  - vm_compute. reflexivity.
  - vm_compute. reflexivity.
  - exists w4. repeat split; assumption.
Defined.

(** C2 fails as stated: on a site that refuses the first order six
    times and then shows no receipt, the submission is exhausted, the
    read of the receipt raises, and the run aborts: no merged document is
    written, the second order is not started, no archive is made. *)
Lemma exhausted_submission_aborts_without_receipt :
  let run := program Demo.no_receipt "output" Demo.rejecting in
  count_events is_failed_check (trace run.1) = 6%nat /\
  count_events is_submit_click (trace run.1) = 6%nat /\
  run.2 = Raise (Exception "TimeoutError" "Timeout 30000ms exceeded.") /\
  last (trace run.1) =
    Some (Called (InnerHtml Sel.receipt)
            (Raise (Exception "TimeoutError" "Timeout 30000ms exceeded."))) /\
  count_events is_merged_write (trace run.1) = 0%nat /\
  count_events is_modal_wait (trace run.1) = 2%nat /\
  archive run.1 = None.
Proof. vm_compute. repeat split. Qed.

(** * The further properties on the scripted outside *)

Lemma run_without_make_archive_keeps_the_zip_witness :
  let respond :=
    Demo.answer [OrderRow (Some (SInt 3)) (Some (SInt 7)) None None None] Demo.catalog in
  (program respond "output" Demo.with_leftover).2
  = Raise (Exception "TypeError" "unsupported operand type(s) for +") /\
  archive (program respond "output" Demo.with_leftover).1 = archive Demo.with_leftover.
Proof.
  intros respond.
  split; [vm_compute; reflexivity |].
  apply (run_without_make_archive_keeps_the_zip respond "output" Demo.with_leftover).
  vm_compute. reflexivity.
Defined.

Lemma submit_until_success_returns_witness :
  (submit_until_success Demo.outside_world Demo.fresh).2 = Ok tt /\
  exists k s : nat,
    (1 <= Z.of_nat k <= MAX_SUBMISSION_ATTEMPTS + 1)%Z /\
    (s = 1%nat \/ (s = 0%nat /\ Z.of_nat k = MAX_SUBMISSION_ATTEMPTS + 1)%Z) /\
    count_events is_submit_click (trace (submit_until_success Demo.outside_world Demo.fresh).1) =
      (count_events is_submit_click (trace Demo.fresh) + k)%nat.
Proof.
  split; [vm_compute; reflexivity |].
  destruct (submit_until_success_returns Demo.outside_world Demo.fresh
              (submit_until_success Demo.outside_world Demo.fresh).1)
    as (k & s & Hk & Hs & Hc & _).
  - vm_compute. reflexivity.
  - exists k, s. repeat split; try apply Hk; assumption.
Defined.

Lemma submit_until_success_passes_exceptions_on_witness :
  (submit_until_success Demo.stuck Demo.fresh).2
  = Raise (Exception "TimeoutError" "Timeout 30000ms exceeded.") /\
  exists ev,
    last (trace (submit_until_success Demo.stuck Demo.fresh).1) = Some ev /\
    raised_exn ev = Some (Exception "TimeoutError" "Timeout 30000ms exceeded.").
Proof.
  split; [vm_compute; reflexivity |].
  destruct (submit_until_success_passes_exceptions_on Demo.stuck Demo.fresh
              (submit_until_success Demo.stuck Demo.fresh).1
              (Exception "TimeoutError" "Timeout 30000ms exceeded."))
    as (ev & Hlast & Hev & _).
  - vm_compute. reflexivity.
  - exists ev. split; assumption.
Defined.

Lemma run_interactions_witness :
  (program Demo.outside_world "output" Demo.fresh).2 = Ok tt /\
  exists w0 w1 orders_df,
    module_init Demo.outside_world Demo.fresh = (w0, Ok tt) /\
    get_orders Demo.outside_world w0 = (w1, Ok orders_df) /\
    count_events is_modal_wait (trace (program Demo.outside_world "output" Demo.fresh).1) =
      (count_events is_modal_wait (trace Demo.fresh) + S (length orders_df))%nat /\
    count_events is_form_fill (trace (program Demo.outside_world "output" Demo.fresh).1) =
      (count_events is_form_fill (trace Demo.fresh) + 4 * length orders_df)%nat /\
    exists k : nat,
      (Z.of_nat (length orders_df) <= Z.of_nat k
         <= (MAX_SUBMISSION_ATTEMPTS + 1) * Z.of_nat (length orders_df))%Z /\
      count_events is_submit_click (trace (program Demo.outside_world "output" Demo.fresh).1) =
        (count_events is_submit_click (trace Demo.fresh) + k)%nat.
Proof.
  split; [vm_compute; reflexivity |].
  apply (run_interactions Demo.outside_world "output" Demo.fresh).
  vm_compute. reflexivity.
Defined.

Lemma every_order_keeps_its_three_files_witness :
  (program Demo.outside_world "output" Demo.fresh).2 = Ok tt /\
  exists w0 w1 orders_df,
    module_init Demo.outside_world Demo.fresh = (w0, Ok tt) /\
    get_orders Demo.outside_world w0 = (w1, Ok orders_df) /\
    forall row, row ∈ orders_df ->
      has_file (program Demo.outside_world "output" Demo.fresh).1
        (RECEIPTS_PATH, receipt_name (Order_number row)) /\
      has_file (program Demo.outside_world "output" Demo.fresh).1
        (IMAGES_PATH, screenshot_name (Order_number row)) /\
      has_file (program Demo.outside_world "output" Demo.fresh).1
        (PDFS_PATH, merged_name (Order_number row)).
Proof.
  split; [vm_compute; reflexivity |].
  apply (every_order_keeps_its_three_files Demo.outside_world "output" Demo.fresh).
  vm_compute. reflexivity.
Defined.


Lemma integer_order_numbers_name_different_files_witness :
  receipt_name (Some (SInt 1)) <> receipt_name (Some (SInt 2)) /\
  screenshot_name (Some (SInt 1)) <> screenshot_name (Some (SInt 2)) /\
  merged_name (Some (SInt 1)) <> merged_name (Some (SInt 2)).
Proof.
  apply (integer_order_numbers_name_different_files 1 2). lia.
Defined.

Lemma one_archive_entry_per_integer_order_witness :
  (program Demo.outside_world "output" Demo.fresh).2 = Ok tt /\
  pdfs Demo.fresh = ∅ /\
  exists w0 w1 orders_df entries,
    module_init Demo.outside_world Demo.fresh = (w0, Ok tt) /\
    get_orders Demo.outside_world w0 = (w1, Ok orders_df) /\
    archive (program Demo.outside_world "output" Demo.fresh).1 = Some entries /\
    size entries = length orders_df /\
    forall n, is_Some (entries !! n) <-> n ∈ merged_names orders_df.
Proof.
  split; [vm_compute; reflexivity |]. split; [reflexivity |].
  apply (one_archive_entry_per_integer_order Demo.outside_world "output" Demo.fresh).
  - vm_compute. reflexivity.
  - reflexivity.
  - intros w0 w1 orders_df Hinit Horders.
    vm_compute in Hinit. injection Hinit as <-.
    vm_compute in Horders. injection Horders as <- <-.
    split.
    + intros row Hrow.
      apply elem_of_cons in Hrow as [-> | Hrow]; [by exists 1%Z |].
      apply elem_of_cons in Hrow as [-> | Hrow]; [by exists 2%Z |].
      by apply elem_of_nil in Hrow.
    + refine (bool_decide_unpack _ _). vm_compute. exact I.
Defined.

Lemma empty_table_archives_what_was_there_witness :
  let respond := Demo.answer [] Demo.catalog in
  let w := Demo.with_leftover in
  get_orders respond (module_init respond w).1 =
    ((get_orders respond (module_init respond w).1).1, Ok []) /\
  archive (program respond "output" w).1 = Some (pdfs w) /\
  count_events is_form_fill (trace (program respond "output" w).1) =
    count_events is_form_fill (trace w).
Proof.
  intros respond w.
  split; [vm_compute; reflexivity |].
  destruct (empty_table_archives_what_was_there respond "output" w
              (program respond "output" w).1 (module_init respond w).1
              (get_orders respond (module_init respond w).1).1)
    as (Hzip & Hfill & _).
  - vm_compute. reflexivity.
  - vm_compute. reflexivity.
  - vm_compute. reflexivity.
  - split; assumption.
Defined.

Lemma failed_download_aborts_the_run_witness :
  let w0 := (module_init Demo.offline Demo.fresh).1 in
  module_init Demo.offline Demo.fresh = (w0, Ok tt) /\
  Demo.offline _ (HttpDownload Sel.orders_csv) (outside w0) =
    (outside w0, Raise (Exception "ConnectionError" "Max retries exceeded")) /\
  (program Demo.offline "output" Demo.fresh).2 =
    Raise (Exception "ConnectionError" "Max retries exceeded") /\
  root_files (program Demo.offline "output" Demo.fresh).1 = root_files Demo.fresh.
Proof.
  intros w0.
  assert (Hinit : module_init Demo.offline Demo.fresh = (w0, Ok tt))
    by (vm_compute; reflexivity).
  split; [exact Hinit |]. split; [reflexivity |].
  destruct (failed_download_aborts_the_run Demo.offline "output" Demo.fresh w0
              (outside w0) (Exception "ConnectionError" "Max retries exceeded")
              Hinit eq_refl)
    as (Hrun & _ & Hroot).
  split; [by rewrite Hrun | exact Hroot].
Defined.

Lemma catalog_ignores_row_order_witness :
  NoDup (Part_number <$> Demo.catalog) /\
  parts_dict_of Demo.catalog = parts_dict_of (reverse Demo.catalog).
Proof.
  assert (Hnodup : NoDup (Part_number <$> Demo.catalog)).
  { refine (bool_decide_unpack _ _). vm_compute. exact I. }
  split; [exact Hnodup |].
  apply (catalog_ignores_row_order Demo.catalog (reverse Demo.catalog)).
  - symmetry. apply reverse_Permutation.
  - exact Hnodup.
Defined.
